(** * Debate backend: the HTTP handlers of [server3.js] and of its FAISS variant

    The two source files are Express servers with the same five routes.  They
    differ only inside [POST /api/chat/rag]: the splitter's chunk size, the
    embedding model, the vector-store class and the way the chain is put
    together.  This development embeds the handlers as functions over an
    explicit environment of collaborators (mongoose, the LangChain splitter,
    embedder, vector store and chat model), records every collaborator call in
    a trace, and proves the properties the specification states about them. *)

From Stdlib Require Import PrimFloat QArith Lqa.
From stdpp Require Import base list sorting strings gmap.
From Equations Require Import Equations.

Set Warnings "-register-all".
Local Open Scope string_scope.
Local Open Scope list_scope.

(** ** JavaScript values *)

(** What [express.json()] can put under a key of [req.body], plus
    [undefined] for an absent key.  Numbers are binary64, as in JS. *)
Inductive JsVal :=
| VUndefined
| VNull
| VBool (b : bool)
| VNum (x : float)
| VStr (s : string)
| VArr (l : list JsVal)
| VObj (o : gmap string JsVal).

(** ToBoolean: [undefined], [null], [false], [+0], [-0], [NaN] and the empty
    string are falsy, everything else (arrays and objects included) truthy. *)
Definition truthy (v : JsVal) : bool :=
  match v with
  | VUndefined | VNull => false
  | VBool b => b
  | VNum x => negb (PrimFloat.eqb x 0%float || PrimFloat.is_nan x)
  | VStr s => negb (String.eqb s EmptyString)
  | VArr _ | VObj _ => true
  end.

(** Property read [o.k] on a plain object: [undefined] when absent.  A
    request body is such an object: [express.json()] leaves [{}] in
    [req.body] when the request carries no JSON object. *)
Definition get (o : gmap string JsVal) (k : string) : JsVal :=
  default VUndefined (o !! k).

(** A thrown JS error object. *)
Record JsError := mkError {
  err_name : string;
  err_message : string;
  err_stack : string
}.

Inductive JsResult (A : Type) :=
| Ok (a : A)
| Throw (e : JsError).
Arguments Ok {A} a.
Arguments Throw {A} e.

(** [Array.prototype.join]: the loop of the language definition, with the
    separator put before every element but the first. *)
Fixpoint join_loop (sep : string) (acc : string) (first : bool) (l : list string) : string :=
  match l with
  | [] => acc
  | x :: rest =>
      join_loop sep (if first then acc +:+ x else acc +:+ sep +:+ x) false rest
  end.

Definition js_join (sep : string) (l : list string) : string :=
  join_loop sep EmptyString true l.

(** ** The Debate schema *)

(** A path declared [String] without [required]: it may be missing, [null]
    or a string. *)
Inductive SchemaString :=
| SAbsent
| SNull
| SVal (s : string).

(** What a template literal [`${x}`] prints for such a path. *)
Definition interpolate (x : SchemaString) : string :=
  match x with
  | SAbsent => "undefined"
  | SNull => "null"
  | SVal s => s
  end.

Record ChatTurn := mkTurn {
  speaker : SchemaString;
  content : SchemaString;
  timestamp : option Z
}.

Record UploadedFile := mkFile {
  filename : SchemaString;
  data : list Z;
  mimetype : SchemaString
}.

Record Debate := mkDebate {
  _id : string;
  clientId : string;
  debateTopic : string;
  userRole : string;
  chatHistory : list ChatTurn;
  adjudicationResult : JsVal;
  uploadedFiles : list UploadedFile;
  createdAt : Z
}.

(** The projection ['debateTopic userRole createdAt clientId'] of the list
    route (mongoose always keeps [_id]). *)
Record DebateSummary := mkSummary {
  sum_id : string;
  sum_debateTopic : string;
  sum_userRole : string;
  sum_createdAt : Z;
  sum_clientId : string
}.

(** The filter object handed to [Debate.find]. *)
Inductive Filter :=
| FEmpty
| FClientId (v : JsVal).

(** ** LangChain objects the handler passes around *)

Record Document := mkDoc { pageContent : string }.

Definition Vec := list Q.

Inductive EmbedModel :=
| FastEmbed
| HuggingFaceMiniLM.

Inductive StoreKind :=
| MemoryVectorStore
| FaissStore.

Record IndexEntry := mkEntry {
  entry_vector : Vec;
  entry_doc : Document
}.

Record VectorStore := mkStore {
  store_kind : StoreKind;
  store_model : EmbedModel;
  store_entries : list IndexEntry
}.

(** Values flowing between the steps of a chain. *)
Inductive ChainVal :=
| CJs (v : JsVal)
| CDocs (ds : list Document).

(** The variables handed to the prompt template. *)
Record Prompt := mkPrompt {
  prompt_system : string;
  prompt_context : ChainVal;
  prompt_question : JsVal
}.

(** LangChain runnables, the objects that have a [pipe] method. *)
Inductive Runnable :=
| RRetriever (vs : VectorStore) (k : nat)
| RFormatDocs
| RPipe (first second : Runnable).

(** A JS value used as the receiver of [.pipe(...)]. *)
Inductive Receiver :=
| JFunction (f : JsVal -> JsVal)
| JRunnable (r : Runnable).

Definition typeError (msg : string) : JsError :=
  mkError "TypeError" msg EmptyString.

(** [recv.pipe(next)]: a runnable composes; a plain function has no [pipe]
    property (neither [Function.prototype] nor [Object.prototype] defines
    one), so calling it throws. *)
Definition method_pipe (recv : Receiver) (next : Runnable) : JsResult Runnable :=
  match recv with
  | JRunnable r => Ok (RPipe r next)
  | JFunction _ => Throw (typeError "(intermediate value).pipe is not a function")
  end.

(** ** Effects: a trace of collaborator calls, and exceptions *)

Inductive Event :=
| EvFind (q : Filter)
| EvFindProjected (projection : string)
| EvFindById (id : string)
| EvSave (body : gmap string JsVal)
| EvCreateDocuments (chunkSize chunkOverlap : nat) (texts : list string)
| EvNewEmbeddings (m : EmbedModel)
| EvFromDocuments (kind : StoreKind) (m : EmbedModel) (docs : list Document)
| EvNewChatModel (model : string)
| EvRetrieve (vs : VectorStore) (k : nat) (input : ChainVal)
| EvGenerate (p : Prompt)
| EvLog (label : string) (e : JsError).

Definition M (A : Type) : Type := (list Event * JsResult A)%type.

Definition ret {A} (a : A) : M A := ([], Ok a).

Definition bind {A B} (m : M A) (f : A -> M B) : M B :=
  match m with
  | (t, Ok a) => let '(t', r) := f a in (t ++ t', r)
  | (t, Throw e) => (t, Throw e)
  end.

(** One awaited call to a collaborator: the call is recorded, its outcome is
    the collaborator's. *)
Definition call {A} (ev : Event) (r : JsResult A) : M A := ([ev], r).

Definition lift {A} (r : JsResult A) : M A := ([], r).

(** [try { m } catch (error) { h error }] where the catch block cannot throw. *)
Definition try_catch {A} (m : M A) (h : JsError -> list Event * A) : list Event * A :=
  match m with
  | (t, Ok a) => (t, a)
  | (t, Throw e) => let '(t', a) := h e in (t ++ t', a)
  end.

Notation "x <- m ;; k" := (bind m (fun x => k))
  (at level 100, m at next level, right associativity).

(** ** The collaborators *)

(** The mongoose model and the LangChain classes are libraries outside the
    repository.  A handler sees each of their calls either return a value or
    throw; the environment fixes which. *)

Record Env := mkEnv {
  (* mongoose *)
  ObjectId_isValid : string -> bool;
  Debate_find : Filter -> JsResult (list Debate);
  Debate_find_projected : string -> JsResult (list DebateSummary);
  Debate_findById : string -> JsResult (option Debate);
  Debate_save : gmap string JsVal -> JsResult Debate;
  (* LangChain *)
  createDocuments : nat -> nat -> list string -> JsResult (list Document);
  newEmbeddings : EmbedModel -> JsResult unit;
  fromDocuments : StoreKind -> EmbedModel -> list Document -> JsResult VectorStore;
  newChatGroq : string -> JsResult unit;
  retriever_invoke : VectorStore -> nat -> ChainVal -> JsResult (list Document);
  model_invoke : Prompt -> JsResult string
}.

(** ** HTTP responses *)

Inductive Payload :=
| PJs (v : JsVal)
| PDebate (d : Debate)
| PSummaries (l : list DebateSummary).

Record Response := mkResponse {
  status : nat;
  body : gmap string Payload
}.

Definition pbool (b : bool) : Payload := PJs (VBool b).
Definition pstr (s : string) : Payload := PJs (VStr s).

(** [res.status(code).json({ success: false, message })] *)
Definition failure (code : nat) (message : string) : Response :=
  mkResponse code (<["success" := pbool false]> (<["message" := pstr message]> ∅)).

(** [res.status(code).json({ success: false, message, error: error.message })] *)
Definition failure_with_error (code : nat) (message : string) (e : JsError) : Response :=
  mkResponse code
    (<["success" := pbool false]>
       (<["message" := pstr message]> (<["error" := pstr (err_message e)]> ∅))).

(** [res.status(code).json({ success: true, data })] *)
Definition success_data (code : nat) (d : Payload) : Response :=
  mkResponse code (<["success" := pbool true]> (<["data" := d]> ∅)).

(** [res.json({ success: true, reply })] *)
Definition success_reply (reply : string) : Response :=
  mkResponse 200 (<["success" := pbool true]> (<["reply" := pstr reply]> ∅)).

(** ** The CRUD routes *)

(** [GET /api/debates] *)
Definition getDebates (env : Env) : list Event * Response :=
  try_catch
    (debates <- call (EvFindProjected "debateTopic userRole createdAt clientId")
                  (Debate_find_projected env "debateTopic userRole createdAt clientId") ;;
     ret (success_data 200 (PSummaries debates)))
    (fun error =>
       ([EvLog "Error fetching all debates:" error],
        failure_with_error 500 "An error occurred while fetching debates." error)).

(** [GET /api/debates/:debateId] *)
Definition getDebateById (env : Env) (debateId : string) : list Event * Response :=
  try_catch
    (if negb (ObjectId_isValid env debateId)
     then ret (failure 400 "Invalid debate ID format.")
     else
       debate <- call (EvFindById debateId) (Debate_findById env debateId) ;;
       match debate with
       | None => ret (failure 404 "Debate not found.")
       | Some d => ret (success_data 200 (PDebate d))
       end)
    (fun error =>
       ([EvLog "Error fetching debate details:" error],
        failure_with_error 500 "An error occurred while fetching debate details." error)).

(** [POST /api/debates] *)
Definition postDebate (env : Env) (reqBody : gmap string JsVal) : list Event * Response :=
  try_catch
    (savedDebate <- call (EvSave reqBody) (Debate_save env reqBody) ;;
     ret (success_data 201 (PDebate savedDebate)))
    (fun error =>
       ([EvLog "Error creating debate:" error],
        if String.eqb (err_name error) "ValidationError"
        then failure_with_error 400 "Validation Error" error
        else failure_with_error 500 "An error occurred while creating the debate." error)).

(** ** The RAG route *)

(** The two source files. *)
Inductive Variant :=
| ServerMemory   (* src/server/server3.js *)
| ServerFaiss.   (* the FAISS variant *)

Definition chunkSize (v : Variant) : nat :=
  match v with
  | ServerMemory => 2000
  | ServerFaiss => 1000
  end.

Definition chunkOverlap (v : Variant) : nat := 200.

Definition embeddingModel (v : Variant) : EmbedModel :=
  match v with
  | ServerMemory => FastEmbed
  | ServerFaiss => HuggingFaceMiniLM
  end.

Definition storeKind (v : Variant) : StoreKind :=
  match v with
  | ServerMemory => MemoryVectorStore
  | ServerFaiss => FaissStore
  end.

Definition retrieverK : nat := 5.

Definition noHistoryReply : string :=
  "I couldn't find any debate history. Once you complete a debate, you can ask me questions about it.".

Definition newline : string := String (Ascii.ascii_of_nat 10) EmptyString.

Definition dquote : string := String (Ascii.ascii_of_nat 34) EmptyString.

(** [`${chat.speaker}: ${chat.content}`] *)
Definition chatLine (chat : ChatTurn) : string :=
  interpolate (speaker chat) +:+ ": " +:+ interpolate (content chat).

(** The body of [debates.map(debate => ...)]. *)
Definition debateText (debate : Debate) : string :=
  let chatHistoryText := js_join newline (map chatLine (chatHistory debate)) in
  "Debate on " +:+ dquote +:+ debateTopic debate +:+ dquote
    +:+ " (Client: " +:+ clientId debate +:+ "):" +:+ newline +:+ chatHistoryText.

Definition debateTexts (debates : list Debate) : list string :=
  map debateText debates.

Definition systemTemplate : string :=
  "You are an expert assistant who analyzes a user's debate history. Answer the user's question based ONLY on the context provided below. If the information is not in the context, explicitly state that you cannot answer based on their history. Be concise and helpful."
    +:+ newline +:+ newline +:+ "CONTEXT:" +:+ newline +:+ "{context}".

(** [formatDocumentsAsString]: the page contents, separated by a blank line. *)
Definition formatDocumentsAsString (documents : list Document) : string :=
  js_join (newline +:+ newline) (map pageContent documents).

(** Running a runnable on an input.  [RFormatDocs] applied to something that
    is not a document array ([documents.map is not a function]) is reached by
    neither handler. *)
Fixpoint run (env : Env) (r : Runnable) (x : ChainVal) : M ChainVal :=
  match r with
  | RRetriever vs k =>
      docs <- call (EvRetrieve vs k x) (retriever_invoke env vs k x) ;;
      ret (CDocs docs)
  | RFormatDocs =>
      match x with
      | CDocs ds => ret (CJs (VStr (formatDocumentsAsString ds)))
      | CJs _ => lift (Throw (typeError "documents.map is not a function"))
      end
  | RPipe a b =>
      y <- run env a x ;;
      run env b y
  end.

(** [input.question] on the chain input. *)
Definition get_prop (v : JsVal) (k : string) : JsVal :=
  match v with
  | VObj o => get o k
  | _ => VUndefined
  end.

(** The expression under the key [context] of the first chain step.
    [server3.js] writes [retriever.pipe(formatDocumentsAsString)]; the FAISS
    variant writes
    [((input) => input.question).pipe(retriever).pipe(formatDocumentsAsString)]. *)
Definition contextChain (v : Variant) (retriever : Runnable) : JsResult Runnable :=
  match v with
  | ServerMemory => method_pipe (JRunnable retriever) RFormatDocs
  | ServerFaiss =>
      match method_pipe (JFunction (fun input => get_prop input "question")) retriever with
      | Ok r => method_pipe (JRunnable r) RFormatDocs
      | Throw e => Throw e
      end
  end.

(** [ragChain.invoke(input)]: the map step computes [context] and [question]
    from the same input, the prompt is rendered, the model is called and the
    output parser returns its text. *)
Definition invokeChain (env : Env) (context : Runnable) (input : JsVal) : M string :=
  ctx <- run env context (CJs input) ;;
  let p := mkPrompt systemTemplate ctx (get_prop input "question") in
  call (EvGenerate p) (model_invoke env p).

Definition groqModel : string := "openai/gpt-oss-20b".

(** The chain input [{ question: question }]. *)
Definition chainInput (question : JsVal) : JsVal :=
  VObj {[ "question" := question ]}.

(** The [try] block of [POST /api/chat/rag]. *)
Definition ragPipeline (v : Variant) (env : Env) (question clientId : JsVal) : M Response :=
  let query := if truthy clientId then FClientId clientId else FEmpty in
  debates <- call (EvFind query) (Debate_find env query) ;;
  if Nat.eqb (length debates) 0
  then ret (success_reply noHistoryReply)
  else
    let texts := debateTexts debates in
    splitDocs <- call (EvCreateDocuments (chunkSize v) (chunkOverlap v) texts)
                   (createDocuments env (chunkSize v) (chunkOverlap v) texts) ;;
    _ <- call (EvNewEmbeddings (embeddingModel v)) (newEmbeddings env (embeddingModel v)) ;;
    vectorStore <- call (EvFromDocuments (storeKind v) (embeddingModel v) splitDocs)
                     (fromDocuments env (storeKind v) (embeddingModel v) splitDocs) ;;
    let retriever := RRetriever vectorStore retrieverK in
    _ <- call (EvNewChatModel groqModel) (newChatGroq env groqModel) ;;
    context <- lift (contextChain v retriever) ;;
    result <- invokeChain env context (chainInput question) ;;
    ret (success_reply result).

(** [POST /api/chat/rag] *)
Definition chatRag (v : Variant) (env : Env) (reqBody : gmap string JsVal) : list Event * Response :=
  let question := get reqBody "question" in
  let clientId := get reqBody "clientId" in
  if negb (truthy question)
  then ([], failure 400 "Question is required.")
  else
    try_catch (ragPipeline v env question clientId)
      (fun error =>
         ([EvLog "RAG chat error:" error],
          failure 500 "An error occurred while processing your request.")).

(** ** The Document Store *)

Section DocumentStore.

(** How the store compares a filter value that is not a string with a
    stored client id (the driver's casting rules). *)
Variable cast_match : JsVal -> string -> bool.

(** Modelled from the spec: "query-by-filter"; the empty filter matches
    every record, a client id matches the records of that client. *)
Definition matches (f : Filter) (d : Debate) : bool :=
  match f with
  | FEmpty => true
  | FClientId (VStr s) => String.eqb s (clientId d)
  | FClientId v => cast_match v (clientId d)
  end.

(** Modelled from the spec: "sorted by creation time descending" (the
    order among records created at the same instant is the store's; here
    the stored order is kept). *)
Fixpoint insert_newest (d : Debate) (sorted : list Debate) : list Debate :=
  match sorted with
  | [] => [d]
  | x :: rest =>
      if Z.ltb (createdAt x) (createdAt d)
      then d :: x :: rest
      else x :: insert_newest d rest
  end.

Definition newest_first (l : list Debate) : list Debate :=
  foldr insert_newest [] l.

(** Modelled from the spec: the Document Store (a MongoDB collection behind
    mongoose, not part of the repository) as a list of records, with
    "query-by-filter returning matching records sorted by creation time
    descending". *)
Definition store_find (db : list Debate) (f : Filter) : JsResult (list Debate) :=
  Ok (newest_first (filter (fun d => matches f d = true) db)).

(** Modelled from the spec: the list route's records, "[{topic, userRole,
    createdAt, clientId, id}, ...] sorted by creation time descending". *)
Definition summary (d : Debate) : DebateSummary :=
  mkSummary (_id d) (debateTopic d) (userRole d) (createdAt d) (clientId d).

Definition store_find_projected (db : list Debate) (projection : string)
  : JsResult (list DebateSummary) :=
  Ok (map summary (newest_first db)).

Definition is_hex_digit (c : Ascii.ascii) : bool :=
  let n := Ascii.nat_of_ascii c in
  (Nat.leb 48 n && Nat.leb n 57) || (Nat.leb 97 n && Nat.leb n 102)
  || (Nat.leb 65 n && Nat.leb n 70).

(** Modelled from the spec: "get-by-id with identifier-format validation".
    The format itself is the store library's; the usual textual form of a
    store-assigned id, 24 hexadecimal digits, is taken here. *)
Definition is_object_id (s : string) : bool :=
  Nat.eqb (String.length s) 24 && forallb is_hex_digit (String.list_ascii_of_string s).

(** Modelled from the spec: "get-by-id", the record with that id if the
    store holds one. *)
Definition store_findById (db : list Debate) (id : string) : JsResult (option Debate) :=
  Ok (List.find (fun d => String.eqb (_id d) id) db).

End DocumentStore.

(** ** The Chunker *)

Module Chunker.

Definition text := list Ascii.ascii.

Definition is_char (n : nat) (c : option Ascii.ascii) : bool :=
  match c with
  | Some a => Nat.eqb (Ascii.nat_of_ascii a) n
  | None => false
  end.

(** Modelled from the spec: the "natural boundaries" of the Chunker
    (the splitter class is LangChain's).  A cut after [c] characters falls
    at the end of a paragraph (after an empty line), of a sentence (after a
    full stop, question mark, exclamation mark or line end) or of a word
    (after a space). *)
Definition paragraph_end (s : text) (c : nat) : bool :=
  Nat.leb 2 c && is_char 10 (s !! (c - 2)) && is_char 10 (s !! (c - 1)).

Definition sentence_end (s : text) (c : nat) : bool :=
  Nat.leb 1 c &&
  (is_char 46 (s !! (c - 1)) || is_char 63 (s !! (c - 1))
   || is_char 33 (s !! (c - 1)) || is_char 10 (s !! (c - 1))).

Definition word_end (s : text) (c : nat) : bool :=
  Nat.leb 1 c && is_char 32 (s !! (c - 1)).

(** The last position among [lo + n], ..., [lo + 1] where [P] holds. *)
Fixpoint last_boundary (P : nat -> bool) (lo n : nat) : option nat :=
  match n with
  | 0 => None
  | S n' => if P (lo + S n') then Some (lo + S n') else last_boundary P lo n'
  end.

(** Modelled from the spec: "the largest available natural boundary
    (paragraph, then sentence, then word, then hard character cut) not
    exceeding the maximum size".  Length of the next chunk of a text longer
    than [M]: the largest kind of boundary that occurs in the window
    [(ov, M]], at its last occurrence; a hard cut at [M] when there is
    none.  The chunk is longer than the overlap it shares with the next. *)
Definition cut (M ov : nat) (s : text) : nat :=
  match last_boundary (paragraph_end s) ov (M - ov) with
  | Some c => c
  | None =>
      match last_boundary (sentence_end s) ov (M - ov) with
      | Some c => c
      | None =>
          match last_boundary (word_end s) ov (M - ov) with
          | Some c => c
          | None => M
          end
      end
  end.

(** Modelled from the spec: the Chunker ([RecursiveCharacterTextSplitter]
    is a LangChain class, not part of the repository).  "Attempt to break
    at the largest available natural boundary (paragraph, then sentence,
    then word, then hard character cut) not exceeding the maximum size,
    preserving overlap trailing characters of the previous chunk at the
    start of the next chunk"; "a blob shorter than the maximum size yields
    exactly one chunk equal to the blob". *)
Equations? chunks (M ov : nat) (s : text) : list text by wf (length s) lt :=
  chunks M ov s with decide (length s <= M) := {
    | left _ => [s]
    | right _ with decide (0 < cut M ov s - ov) := {
        | left _ => take (cut M ov s) s :: chunks M ov (drop (cut M ov s - ov) s)
        | right _ => [s] } }.
Proof. rewrite length_drop. lia. Qed.

Definition splitText (M ov : nat) (blob : string) : list string :=
  map String.string_of_list_ascii (chunks M ov (String.list_ascii_of_string blob)).

(** Modelled from the spec: "given a sequence of source text blobs ...
    produce an ordered sequence of Text Chunks per blob"; the contract asks
    for [overlap < max size]. *)
Definition createDocuments (M ov : nat) (texts : list string) : JsResult (list Document) :=
  if decide (ov < M)
  then Ok (map mkDoc (concat (map (splitText M ov) texts)))
  else Throw (mkError "Error" "overlap must be smaller than the maximum chunk size" EmptyString).

(** The first and the last [n] characters of a chunk. *)
Definition first_chars (n : nat) (c : string) : string :=
  String.substring 0 n c.

Definition last_chars (n : nat) (c : string) : string :=
  String.substring (String.length c - n) n c.

End Chunker.

(** ** The Vector Index and the Retriever *)

Module VectorIndex.

Definition dot (a b : Vec) : Q :=
  foldr Qplus 0%Q (zip_with Qmult a b).

Definition norm2 (a : Vec) : Q := dot a a.

(** [x |-> sgn(x) * x^2], strictly increasing. *)
Definition signed_square (x : Q) : Q :=
  if Qlt_le_dec x 0 then (- (x * x))%Q else (x * x)%Q.

(** Modelled from the spec: "cosine similarity (or equivalent distance
    metric)".  The cosine of the angle between [q] and [v] is
    [dot q v / (|q| * |v|)].  Its signed square is rational and orders
    vectors exactly as the cosine does, so it serves as sort key (a zero
    vector, whose cosine is undefined, gets key 0). *)
Definition cosine_key (q v : Vec) : Q :=
  (signed_square (dot q v) / (norm2 q * norm2 v))%Q.

(** An entry together with its insertion position. *)
Definition Ranked : Type := nat * IndexEntry.

(** The entries of an index with their positions, counted from [k]. *)
Fixpoint number (k : nat) (entries : list IndexEntry) : list Ranked :=
  match entries with
  | [] => []
  | e :: rest => (k, e) :: number (S k) rest
  end.

Section Query.
Variable q : Vec.

Definition score (e : Ranked) : Q := cosine_key q (entry_vector e.2).

(** Modelled from the spec: "ties broken by insertion order (earlier chunk
    wins)".  A later entry [e] goes in front of the first entry it strictly
    beats, hence behind every entry of the same score. *)
Fixpoint place (e : Ranked) (best : list Ranked) : list Ranked :=
  match best with
  | [] => [e]
  | b :: rest =>
      if Qlt_le_dec (score b) (score e)
      then e :: b :: rest
      else b :: place e rest
  end.

(** Modelled from the spec: "brute-force linear scan over all entries held
    in memory", in insertion order. *)
Definition scan (entries : list Ranked) : list Ranked :=
  foldl (fun best e => place e best) [] entries.

(** Modelled from the spec: [query(index, queryVector, k)] "returns the
    k entries whose stored vectors have the highest cosine similarity to
    queryVector, ties broken by insertion order (earlier chunk wins),
    returning fewer than k if the index has fewer than k entries, and an
    empty result if the index is empty" (the vector stores are LangChain
    classes, not part of the repository). *)
Definition query (index : list IndexEntry) (k : nat) : list Ranked :=
  take k (scan (number 0 index)).

(** [e1] comes before [e2] in a result. *)
Definition before (e1 e2 : Ranked) : Prop :=
  (score e2 < score e1)%Q \/ ((score e1 == score e2)%Q /\ e1.1 < e2.1).

End Query.

Section Build.
Variable embed : EmbedModel -> ChainVal -> JsResult Vec.

Fixpoint embed_all (m : EmbedModel) (docs : list Document) : JsResult (list IndexEntry) :=
  match docs with
  | [] => Ok []
  | d :: rest =>
      match embed m (CJs (VStr (pageContent d))) with
      | Throw e => Throw e
      | Ok v =>
          match embed_all m rest with
          | Throw e => Throw e
          | Ok es => Ok (mkEntry v d :: es)
          end
      end
  end.

(** Modelled from the spec: [build(chunks, embedder)] "computes an
    embedding for every chunk (if the embedder fails for any chunk the
    whole build fails, no partial index)". *)
Definition build (kind : StoreKind) (m : EmbedModel) (docs : list Document)
  : JsResult VectorStore :=
  match embed_all m docs with
  | Ok es => Ok (mkStore kind m es)
  | Throw e => Throw e
  end.

(** Modelled from the spec: [retrieve(index, embedder, questionText, k)]
    "embeds questionText with the same Embedder used to build the index,
    queries the index for the top-k, and returns just the chunk text
    strings in result order". *)
Definition retrieve (vs : VectorStore) (k : nat) (input : ChainVal)
  : JsResult (list Document) :=
  match embed (store_model vs) input with
  | Ok qv => Ok (map (fun e : Ranked => entry_doc e.2) (query qv (store_entries vs) k))
  | Throw e => Throw e
  end.

End Build.

End VectorIndex.

(** ** An environment assembled from the models above *)

Section SpecEnv.
Variable cast_match : JsVal -> string -> bool.
Variable save : gmap string JsVal -> JsResult Debate.
Variable embed : EmbedModel -> ChainVal -> JsResult Vec.
Variable generate : Prompt -> JsResult string.

Definition specEnv (db : list Debate) : Env :=
  {| ObjectId_isValid := is_object_id;
     Debate_find := store_find cast_match db;
     Debate_find_projected := store_find_projected db;
     Debate_findById := store_findById db;
     Debate_save := save;
     createDocuments := Chunker.createDocuments;
     newEmbeddings := fun _ => Ok tt;
     fromDocuments := VectorIndex.build embed;
     newChatGroq := fun _ => Ok tt;
     retriever_invoke := VectorIndex.retrieve embed;
     model_invoke := generate |}.

End SpecEnv.

(** ** Concrete scenarios *)

Definition networkError : JsError :=
  mkError "MongoNetworkError" "connect ECONNREFUSED 127.0.0.1:27017"
    "MongoNetworkError: connect ECONNREFUSED 127.0.0.1:27017 at connectionFailureError (node_modules/mongodb/lib/cmap/connect.js:379:20)".

(** Every collaborator is unreachable. *)
Definition outageEnv : Env :=
  {| ObjectId_isValid := is_object_id;
     Debate_find := fun _ => Throw networkError;
     Debate_find_projected := fun _ => Throw networkError;
     Debate_findById := fun _ => Throw networkError;
     Debate_save := fun _ => Throw networkError;
     createDocuments := fun _ _ _ => Throw networkError;
     newEmbeddings := fun _ => Throw networkError;
     fromDocuments := fun _ _ _ => Throw networkError;
     newChatGroq := fun _ => Throw networkError;
     retriever_invoke := fun _ _ _ => Throw networkError;
     model_invoke := fun _ => Throw networkError |}.

Definition noCast (v : JsVal) (cid : string) : bool := false.

Definition rejectSave (doc : gmap string JsVal) : JsResult Debate :=
  Throw (mkError "ValidationError"
           "Debate validation failed: clientId: Path `clientId` is required."
           EmptyString).

(** An embedder that maps every text to the same unit vector. *)
Definition unitEmbed (m : EmbedModel) (x : ChainVal) : JsResult Vec := Ok [1%Q].

(** A generator that answers with the context it was given. *)
Definition echoContext (p : Prompt) : JsResult string :=
  match prompt_context p with
  | CJs (VStr c) => Ok c
  | _ => Ok EmptyString
  end.

Definition demoEnv (db : list Debate) : Env :=
  specEnv noCast rejectSave unitEmbed echoContext db.

Definition catsDebate : Debate :=
  mkDebate "65f0c0ffee0123456789abcd" "u1" "Cats" "pro"
    [mkTurn (SVal "user") (SVal "Cats are independent.") (Some 1700000000000%Z);
     mkTurn (SVal "ai") (SVal "Dogs are loyal.") (Some 1700000001000%Z)]
    VNull [] 1700000002000%Z.

Definition dogsDebate : Debate :=
  mkDebate "65f0c0ffee0123456789abce" "u2" "Dogs" "con"
    [mkTurn (SVal "user") (SVal "Dogs need walks.") (Some 1700000100000%Z)]
    VNull [] 1700000102000%Z.

Fixpoint repeat_string (n : nat) (s : string) : string :=
  match n with
  | 0 => EmptyString
  | S n' => s +:+ repeat_string n' s
  end.

(** A debate whose flattened text has between 1000 and 2000 characters. *)
Definition marsDebate : Debate :=
  mkDebate "65f0c0ffee0123456789abcf" "u1" "Mars" "pro"
    [mkTurn (SVal "user")
       (SVal (repeat_string 40 "Mars is far away. Probes are cheap. "))
       (Some 1700000200000%Z)]
    VNull [] 1700000202000%Z.

Definition sampleEntry (x y : Z) (t : string) : IndexEntry :=
  mkEntry [inject_Z x; inject_Z y] (mkDoc t).

Definition sampleIndex : list IndexEntry :=
  [sampleEntry 1 0 "a"; sampleEntry 0 1 "b"; sampleEntry 2 0 "c";
   sampleEntry (-1) 0 "d"; sampleEntry 1 1 "e"; sampleEntry 3 1 "f";
   sampleEntry 0 0 "z"].

(** ** Observations on traces and responses *)

Definition queries_store (ev : Event) : bool :=
  match ev with
  | EvFind _ | EvFindProjected _ | EvFindById _ | EvSave _ => true
  | _ => false
  end.

(** The calls that construct or run the embedder. *)
Definition invokes_embedder (ev : Event) : bool :=
  match ev with
  | EvNewEmbeddings _ | EvFromDocuments _ _ _ | EvRetrieve _ _ _ => true
  | _ => false
  end.

(** The calls that construct or run the chat model. *)
Definition invokes_generator (ev : Event) : bool :=
  match ev with
  | EvNewChatModel _ | EvGenerate _ => true
  | _ => false
  end.

Definition success_flag (r : Response) : option Payload := body r !! "success".

(** The filter [POST /api/chat/rag] builds from [clientId]. *)
Definition ragFilter (reqBody : gmap string JsVal) : Filter :=
  if truthy (get reqBody "clientId") then FClientId (get reqBody "clientId") else FEmpty.

(** The body has a [question] that is a non-empty string. *)
Definition has_question_string (reqBody : gmap string JsVal) : Prop :=
  exists s, get reqBody "question" = VStr s /\ s <> EmptyString.

(** The flattening as the specification words it: a header naming topic and
    client id, then the turns as ["<speaker>: <content>"] lines joined with
    newlines. *)
Definition headerLine (d : Debate) : string :=
  "Debate on " +:+ dquote +:+ debateTopic d +:+ dquote +:+ " (Client: " +:+ clientId d +:+ "):".

Definition turnLine (t : ChatTurn) : string :=
  interpolate (speaker t) +:+ ": " +:+ interpolate (content t).

Fixpoint joined_lines (lines : list string) : string :=
  match lines with
  | [] => EmptyString
  | [x] => x
  | x :: rest => x +:+ newline +:+ joined_lines rest
  end.

Definition flattenRecord (d : Debate) : string :=
  headerLine d +:+ newline +:+ joined_lines (map turnLine (chatHistory d)).


(** ** The runs of the RAG pipeline *)

(** The calls of the [try] block, in the order the handler makes them. *)
Definition evSplit (v : Variant) (debates : list Debate) : Event :=
  EvCreateDocuments (chunkSize v) (chunkOverlap v) (debateTexts debates).

Definition evEmbedder (v : Variant) : Event :=
  EvNewEmbeddings (embeddingModel v).

Definition evIndex (v : Variant) (splitDocs : list Document) : Event :=
  EvFromDocuments (storeKind v) (embeddingModel v) splitDocs.

Definition evModel : Event := EvNewChatModel groqModel.

Definition evRetrieve (vectorStore : VectorStore) (question : JsVal) : Event :=
  EvRetrieve vectorStore retrieverK (CJs (chainInput question)).

(** The prompt variables of [server3.js] once [found] has been retrieved. *)
Definition ragPrompt (found : list Document) (question : JsVal) : Prompt :=
  mkPrompt systemTemplate (CJs (VStr (formatDocumentsAsString found))) question.

Definition pipeError : JsError :=
  typeError "(intermediate value).pipe is not a function".

(** Every way the [try] block of [POST /api/chat/rag] can run: the calls it
    records and what it returns or throws, by the outcome of each
    collaborator. *)
Inductive RagRun (v : Variant) (env : Env) (f : Filter) (question : JsVal)
  : list Event -> JsResult Response -> Prop :=
| RunLoadFails e :
    Debate_find env f = Throw e ->
    RagRun v env f question [EvFind f] (Throw e)
| RunEmptyHistory debates :
    Debate_find env f = Ok debates -> length debates = 0 ->
    RagRun v env f question [EvFind f] (Ok (success_reply noHistoryReply))
| RunSplitFails debates e :
    Debate_find env f = Ok debates -> length debates <> 0 ->
    createDocuments env (chunkSize v) (chunkOverlap v) (debateTexts debates) = Throw e ->
    RagRun v env f question [EvFind f; evSplit v debates] (Throw e)
| RunEmbedderFails debates splitDocs e :
    Debate_find env f = Ok debates -> length debates <> 0 ->
    createDocuments env (chunkSize v) (chunkOverlap v) (debateTexts debates) = Ok splitDocs ->
    newEmbeddings env (embeddingModel v) = Throw e ->
    RagRun v env f question [EvFind f; evSplit v debates; evEmbedder v] (Throw e)
| RunIndexFails debates splitDocs e :
    Debate_find env f = Ok debates -> length debates <> 0 ->
    createDocuments env (chunkSize v) (chunkOverlap v) (debateTexts debates) = Ok splitDocs ->
    newEmbeddings env (embeddingModel v) = Ok tt ->
    fromDocuments env (storeKind v) (embeddingModel v) splitDocs = Throw e ->
    RagRun v env f question
      [EvFind f; evSplit v debates; evEmbedder v; evIndex v splitDocs] (Throw e)
| RunModelFails debates splitDocs vectorStore e :
    Debate_find env f = Ok debates -> length debates <> 0 ->
    createDocuments env (chunkSize v) (chunkOverlap v) (debateTexts debates) = Ok splitDocs ->
    newEmbeddings env (embeddingModel v) = Ok tt ->
    fromDocuments env (storeKind v) (embeddingModel v) splitDocs = Ok vectorStore ->
    newChatGroq env groqModel = Throw e ->
    RagRun v env f question
      [EvFind f; evSplit v debates; evEmbedder v; evIndex v splitDocs; evModel] (Throw e)
| RunPipeFails debates splitDocs vectorStore :
    v = ServerFaiss ->
    Debate_find env f = Ok debates -> length debates <> 0 ->
    createDocuments env (chunkSize v) (chunkOverlap v) (debateTexts debates) = Ok splitDocs ->
    newEmbeddings env (embeddingModel v) = Ok tt ->
    fromDocuments env (storeKind v) (embeddingModel v) splitDocs = Ok vectorStore ->
    newChatGroq env groqModel = Ok tt ->
    RagRun v env f question
      [EvFind f; evSplit v debates; evEmbedder v; evIndex v splitDocs; evModel]
      (Throw pipeError)
| RunRetrieveFails debates splitDocs vectorStore e :
    v = ServerMemory ->
    Debate_find env f = Ok debates -> length debates <> 0 ->
    createDocuments env (chunkSize v) (chunkOverlap v) (debateTexts debates) = Ok splitDocs ->
    newEmbeddings env (embeddingModel v) = Ok tt ->
    fromDocuments env (storeKind v) (embeddingModel v) splitDocs = Ok vectorStore ->
    newChatGroq env groqModel = Ok tt ->
    retriever_invoke env vectorStore retrieverK (CJs (chainInput question)) = Throw e ->
    RagRun v env f question
      [EvFind f; evSplit v debates; evEmbedder v; evIndex v splitDocs; evModel;
       evRetrieve vectorStore question] (Throw e)
| RunGenerateFails debates splitDocs vectorStore found e :
    v = ServerMemory ->
    Debate_find env f = Ok debates -> length debates <> 0 ->
    createDocuments env (chunkSize v) (chunkOverlap v) (debateTexts debates) = Ok splitDocs ->
    newEmbeddings env (embeddingModel v) = Ok tt ->
    fromDocuments env (storeKind v) (embeddingModel v) splitDocs = Ok vectorStore ->
    newChatGroq env groqModel = Ok tt ->
    retriever_invoke env vectorStore retrieverK (CJs (chainInput question)) = Ok found ->
    model_invoke env (ragPrompt found question) = Throw e ->
    RagRun v env f question
      [EvFind f; evSplit v debates; evEmbedder v; evIndex v splitDocs; evModel;
       evRetrieve vectorStore question; EvGenerate (ragPrompt found question)] (Throw e)
| RunAnswer debates splitDocs vectorStore found reply :
    v = ServerMemory ->
    Debate_find env f = Ok debates -> length debates <> 0 ->
    createDocuments env (chunkSize v) (chunkOverlap v) (debateTexts debates) = Ok splitDocs ->
    newEmbeddings env (embeddingModel v) = Ok tt ->
    fromDocuments env (storeKind v) (embeddingModel v) splitDocs = Ok vectorStore ->
    newChatGroq env groqModel = Ok tt ->
    retriever_invoke env vectorStore retrieverK (CJs (chainInput question)) = Ok found ->
    model_invoke env (ragPrompt found question) = Ok reply ->
    RagRun v env f question
      [EvFind f; evSplit v debates; evEmbedder v; evIndex v splitDocs; evModel;
       evRetrieve vectorStore question; EvGenerate (ragPrompt found question)]
      (Ok (success_reply reply)).

(** The place of a collaborator call in the pipeline; [None] for a log
    entry and for the calls of the other routes. *)
Definition stageOf (ev : Event) : option nat :=
  match ev with
  | EvFind _ => Some 0
  | EvCreateDocuments _ _ _ => Some 1
  | EvNewEmbeddings _ => Some 2
  | EvFromDocuments _ _ _ => Some 3
  | EvNewChatModel _ => Some 4
  | EvRetrieve _ _ _ => Some 5
  | EvGenerate _ => Some 6
  | _ => None
  end.

Definition is_log (ev : Event) : bool :=
  match ev with
  | EvLog _ _ => true
  | _ => false
  end.

Definition reaches_retrieval (ev : Event) : bool :=
  match ev with
  | EvRetrieve _ _ _ | EvGenerate _ => true
  | _ => false
  end.

(** How often a kind of event occurs in a trace. *)
Definition count_events (p : Event -> bool) (trace : list Event) : nat :=
  length (List.filter p trace).

Definition ragError : Response :=
  failure 500 "An error occurred while processing your request.".

Definition questionRequired : Response :=
  failure 400 "Question is required.".

(** [debate] with another chat history. *)
Definition with_history (d : Debate) (h : list ChatTurn) : Debate :=
  mkDebate (_id d) (clientId d) (debateTopic d) (userRole d) h
    (adjudicationResult d) (uploadedFiles d) (createdAt d).

(** What the handler makes of a run: a returned response is sent as it is,
    a thrown error is logged and answered with the generic failure. *)
Definition ragOutcome (t : list Event) (r : JsResult Response) : list Event * Response :=
  match r with
  | Ok resp => (t, resp)
  | Throw e => (t ++ [EvLog "RAG chat error:" e], ragError)
  end.

(** Newest first. *)
Definition newer_or_same (a b : Debate) : Prop := (createdAt b <= createdAt a)%Z.

(** The status codes of the routes that read or write one debate. *)
Definition is_read_status (n : nat) : bool :=
  Nat.eqb n 200 || Nat.eqb n 400 || Nat.eqb n 404 || Nat.eqb n 500.

(** * Properties *)

(** ** The question guard *)

Lemma chatRag_rejects_falsy_question v env reqBody :
  truthy (get reqBody "question") = false ->
  chatRag v env reqBody = ([], failure 400 "Question is required.").
Proof.
  intros Hq. unfold chatRag. rewrite Hq. reflexivity.
Qed.

(** A [try] block that starts with a collaborator call records that call
    first, whatever happens next. *)
Lemma try_catch_call_head {A B} (ev : Event) (r : JsResult A) (f : A -> M B)
    (h : JsError -> list Event * B) :
  exists t x, try_catch (bind (call ev r) f) h = (ev :: t, x).
Proof.
  destruct r as [a|e]; simpl.
  - destruct (f a) as [t [b|e]]; simpl; [eauto|].
    destruct (h e) as [t' b]. eauto.
  - destruct (h e) as [t' b]. eauto.
Qed.

Lemma chatRag_runs_pipeline v env reqBody :
  truthy (get reqBody "question") = true ->
  exists t r, chatRag v env reqBody = (EvFind (ragFilter reqBody) :: t, r).
Proof.
  intros Hq. unfold chatRag, ragPipeline, ragFilter. rewrite Hq. simpl negb. cbv iota.
  apply try_catch_call_head.
Qed.

(** C5 (as amended): when the [question] of a [POST /api/chat/rag] body is
    absent or falsy ([undefined], [null], [false], [0], [NaN] or the empty
    string), the response is HTTP 400 with [success: false] and no
    collaborator, in particular the Document Store, is called. *)
Theorem question_guard v env reqBody :
  truthy (get reqBody "question") = false ->
  status (chatRag v env reqBody).2 = 400
  /\ success_flag (chatRag v env reqBody).2 = Some (pbool false)
  /\ body (chatRag v env reqBody).2 !! "message" = Some (pstr "Question is required.")
  /\ (chatRag v env reqBody).1 = []
  /\ existsb queries_store (chatRag v env reqBody).1 = false.
Proof.
  intros Hq. rewrite (chatRag_rejects_falsy_question v env reqBody Hq).
  repeat split.
Qed.

Lemma question_guard_witness :
  truthy (get (<["clientId" := VStr "u1"]> ∅) "question") = false
  /\ status (chatRag ServerFaiss (demoEnv [catsDebate]) (<["clientId" := VStr "u1"]> ∅)).2 = 400.
Proof.
  split; [reflexivity|].
  apply (question_guard ServerFaiss (demoEnv [catsDebate]) (<["clientId" := VStr "u1"]> ∅)).
  reflexivity.
Defined.

(** C5 (as stated) fails: a body whose [question] is [true] has no question
    string, yet the guard lets it through, the store is queried and the
    answer is 200. *)
Lemma question_guard_counterexample :
  ~ has_question_string {[ "question" := VBool true ]}
  /\ chatRag ServerMemory (demoEnv []) {[ "question" := VBool true ]}
     = ([EvFind FEmpty], success_reply noHistoryReply)
  /\ status (chatRag ServerMemory (demoEnv []) {[ "question" := VBool true ]}).2 = 200
  /\ existsb queries_store
       (chatRag ServerMemory (demoEnv []) {[ "question" := VBool true ]}).1 = true.
Proof.
  split.
  - intros [s [Hs _]]. vm_compute in Hs. discriminate Hs.
  - repeat split.
Qed.

(** ** The empty-history short-circuit *)

Lemma ragPipeline_empty v env question cid debates :
  Debate_find env (if truthy cid then FClientId cid else FEmpty) = Ok debates ->
  length debates = 0 ->
  ragPipeline v env question cid
  = ([EvFind (if truthy cid then FClientId cid else FEmpty)], Ok (success_reply noHistoryReply)).
Proof.
  intros Hfind Hlen. unfold ragPipeline. rewrite Hfind.
  unfold call, bind. rewrite Hlen. reflexivity.
Qed.

(** C2: when the store query of a [POST /api/chat/rag] request returns no
    record, the response is HTTP 200 with [success: true] and the canned
    reply that begins "I couldn't find any debate history"; the only
    collaborator call is the store query, so neither the embedder nor the
    generator is constructed or invoked. *)
Theorem empty_history_short_circuit v env reqBody debates :
  truthy (get reqBody "question") = true ->
  Debate_find env (ragFilter reqBody) = Ok debates ->
  length debates = 0 ->
  status (chatRag v env reqBody).2 = 200
  /\ success_flag (chatRag v env reqBody).2 = Some (pbool true)
  /\ body (chatRag v env reqBody).2 !! "reply" = Some (pstr noHistoryReply)
  /\ String.prefix "I couldn't find any debate history" noHistoryReply = true
  /\ (chatRag v env reqBody).1 = [EvFind (ragFilter reqBody)]
  /\ existsb invokes_embedder (chatRag v env reqBody).1 = false
  /\ existsb invokes_generator (chatRag v env reqBody).1 = false.
Proof.
  intros Hq Hfind Hlen.
  assert (Hrun : chatRag v env reqBody
                 = ([EvFind (ragFilter reqBody)], success_reply noHistoryReply)).
  { unfold chatRag. rewrite Hq. simpl negb. cbv iota.
    unfold ragFilter in *.
    rewrite (ragPipeline_empty v env _ _ debates Hfind Hlen). reflexivity. }
  rewrite Hrun. repeat split.
Qed.

Lemma empty_history_short_circuit_witness :
  let reqBody : gmap string JsVal :=
    <["question" := VStr "Who won?"]> (<["clientId" := VStr "u3"]> ∅) in
  Debate_find (demoEnv [catsDebate; dogsDebate]) (ragFilter reqBody) = Ok []
  /\ status (chatRag ServerMemory (demoEnv [catsDebate; dogsDebate]) reqBody).2 = 200.
Proof.
  split; [reflexivity|].
  apply (empty_history_short_circuit ServerMemory (demoEnv [catsDebate; dogsDebate])
           (<["question" := VStr "Who won?"]> (<["clientId" := VStr "u3"]> ∅)) []);
    reflexivity.
Defined.

(** ** Error responses *)

Lemma try_catch_throw {A} (t : list Event) (e : JsError) (h : JsError -> list Event * A) :
  try_catch (t, Throw e) h = (t ++ (h e).1, (h e).2).
Proof. unfold try_catch. destruct (h e). reflexivity. Qed.

(** C4 (as amended): when a stage of the [POST /api/chat/rag] pipeline or
    its store query raises an error, the error is logged and the response
    is HTTP 500 with exactly the two fields [success: false] and the fixed
    generic [message]; the body is the same whatever the error. *)
Theorem rag_errors_hidden v env reqBody t e :
  truthy (get reqBody "question") = true ->
  ragPipeline v env (get reqBody "question") (get reqBody "clientId") = (t, Throw e) ->
  chatRag v env reqBody
  = (t ++ [EvLog "RAG chat error:" e],
     failure 500 "An error occurred while processing your request.")
  /\ status (chatRag v env reqBody).2 = 500
  /\ dom (body (chatRag v env reqBody).2) = {[ "success"; "message" ]}
  /\ success_flag (chatRag v env reqBody).2 = Some (pbool false)
  /\ body (chatRag v env reqBody).2 !! "message"
     = Some (pstr "An error occurred while processing your request.").
Proof.
  intros Hq Hthrow.
  assert (Hrun : chatRag v env reqBody
                 = (t ++ [EvLog "RAG chat error:" e],
                    failure 500 "An error occurred while processing your request.")).
  { unfold chatRag. rewrite Hq. simpl negb. cbv iota.
    rewrite Hthrow. apply try_catch_throw. }
  rewrite Hrun. split; [reflexivity|]. split; [reflexivity|].
  split; [|split; reflexivity].
  unfold failure. simpl body. rewrite !dom_insert_L, dom_empty_L. set_solver.
Qed.

Lemma rag_errors_hidden_witness :
  let reqBody : gmap string JsVal := {[ "question" := VStr "Who won?" ]} in
  ragPipeline ServerMemory outageEnv (get reqBody "question") (get reqBody "clientId")
  = ([EvFind FEmpty], Throw networkError)
  /\ (chatRag ServerMemory outageEnv reqBody).2
     = failure 500 "An error occurred while processing your request.".
Proof.
  split; [reflexivity|].
  pose proof (rag_errors_hidden ServerMemory outageEnv {[ "question" := VStr "Who won?" ]}
                [EvFind FEmpty] networkError eq_refl eq_refl) as [Hrun _].
  rewrite Hrun. reflexivity.
Defined.

(** The CRUD routes put the error's own message in the body. *)
Lemma getDebates_reports_error env e :
  Debate_find_projected env "debateTopic userRole createdAt clientId" = Throw e ->
  getDebates env
  = ([EvFindProjected "debateTopic userRole createdAt clientId";
      EvLog "Error fetching all debates:" e],
     failure_with_error 500 "An error occurred while fetching debates." e).
Proof. intros H. unfold getDebates. rewrite H. reflexivity. Qed.

Lemma getDebateById_reports_error env id e :
  ObjectId_isValid env id = true ->
  Debate_findById env id = Throw e ->
  (getDebateById env id).2
  = failure_with_error 500 "An error occurred while fetching debate details." e.
Proof. intros Hv H. unfold getDebateById. rewrite Hv, H. reflexivity. Qed.

Lemma postDebate_reports_error env reqBody e :
  Debate_save env reqBody = Throw e ->
  body (postDebate env reqBody).2 !! "error" = Some (pstr (err_message e)).
Proof.
  intros H. unfold postDebate. rewrite H. simpl.
  destruct (String.eqb _ _); reflexivity.
Qed.

(** C4 (as stated) fails: when the store is unreachable, [GET /api/debates]
    answers with a third field, [error], that carries the message of the
    underlying error. *)
Lemma errors_hidden_counterexample :
  Debate_find_projected outageEnv "debateTopic userRole createdAt clientId" = Throw networkError
  /\ status (getDebates outageEnv).2 = 500
  /\ body (getDebates outageEnv).2 !! "error"
     = Some (pstr "connect ECONNREFUSED 127.0.0.1:27017")
  /\ err_message networkError = "connect ECONNREFUSED 127.0.0.1:27017"
  /\ dom (body (getDebates outageEnv).2) <> {[ "success"; "message" ]}.
Proof.
  repeat split.
  intros Hdom.
  assert (Hin : "error" ∈ dom (body (getDebates outageEnv).2)).
  { apply elem_of_dom. eexists. reflexivity. }
  rewrite Hdom in Hin. set_solver.
Qed.

(** ** Fetching one debate *)

(** C8: [GET /api/debates/:id] answers HTTP 400 when the id is not a valid
    identifier, and HTTP 404 when the id is valid but the store holds no
    record with it; both bodies carry [success: false]. *)
Theorem getDebateById_invalid_or_missing env debateId :
  (ObjectId_isValid env debateId = false ->
     status (getDebateById env debateId).2 = 400
     /\ success_flag (getDebateById env debateId).2 = Some (pbool false)
     /\ (getDebateById env debateId).1 = [])
  /\ (ObjectId_isValid env debateId = true ->
      Debate_findById env debateId = Ok None ->
        status (getDebateById env debateId).2 = 404
        /\ success_flag (getDebateById env debateId).2 = Some (pbool false)).
Proof.
  split.
  - intros Hv. unfold getDebateById. rewrite Hv. repeat split.
  - intros Hv Hnone. unfold getDebateById. rewrite Hv, Hnone. repeat split.
Qed.

Lemma getDebateById_invalid_or_missing_witness :
  (ObjectId_isValid (demoEnv [catsDebate]) "not-an-id" = false
   /\ status (getDebateById (demoEnv [catsDebate]) "not-an-id").2 = 400)
  /\ (ObjectId_isValid (demoEnv [catsDebate]) "65f0c0ffee0123456789abce" = true
      /\ Debate_findById (demoEnv [catsDebate]) "65f0c0ffee0123456789abce" = Ok None
      /\ status (getDebateById (demoEnv [catsDebate]) "65f0c0ffee0123456789abce").2 = 404).
Proof.
  split.
  - split; [reflexivity|].
    apply (getDebateById_invalid_or_missing (demoEnv [catsDebate]) "not-an-id").
    reflexivity.
  - split; [reflexivity|]. split; [reflexivity|].
    apply (getDebateById_invalid_or_missing (demoEnv [catsDebate]) "65f0c0ffee0123456789abce");
      reflexivity.
Defined.

(** ** Flattening *)

Lemma append_assoc (a b c : string) : (a +:+ b) +:+ c = a +:+ (b +:+ c).
Proof.
  induction a as [|ch a IH]; [reflexivity|].
  change (String ch ((a +:+ b) +:+ c) = String ch (a +:+ (b +:+ c))).
  f_equal. exact IH.
Qed.

(** The join loop, started after a first element [x], appends the remaining
    lines each behind a separator. *)
Lemma join_loop_joined_lines (rest : list string) (acc x : string) :
  join_loop newline (acc +:+ x) false rest = acc +:+ joined_lines (x :: rest).
Proof.
  revert acc x. induction rest as [|y rest IH]; intros acc x.
  - reflexivity.
  - cbn [join_loop].
    replace ((acc +:+ x) +:+ newline +:+ y) with (((acc +:+ x) +:+ newline) +:+ y)
      by apply append_assoc.
    rewrite IH. cbn [joined_lines].
    rewrite !append_assoc. reflexivity.
Qed.

Lemma js_join_joined_lines (lines : list string) :
  js_join newline lines = joined_lines lines.
Proof.
  destruct lines as [|x rest]; [reflexivity|].
  unfold js_join. cbn [join_loop].
  apply (join_loop_joined_lines rest EmptyString x).
Qed.

Lemma debateText_flattenRecord (d : Debate) : debateText d = flattenRecord d.
Proof.
  unfold debateText, flattenRecord, headerLine.
  rewrite js_join_joined_lines.
  rewrite !append_assoc. reflexivity.
Qed.

(** C6: the flattening step yields exactly one text blob per loaded record,
    in the order of the records; each blob is the header line naming the
    topic and the client id, a newline, and the record's chat turns rendered
    as ["<speaker>: <content>"] lines joined with newlines in the order of
    the turns. *)
Theorem flattening_one_blob_per_record (debates : list Debate) :
  length (debateTexts debates) = length debates
  /\ debateTexts debates = map flattenRecord debates
  /\ Forall2
       (fun d blob =>
          blob = headerLine d +:+ newline
                 +:+ joined_lines (map turnLine (chatHistory d)))
       debates (debateTexts debates).
Proof.
  split; [apply length_map|].
  assert (Heq : debateTexts debates = map flattenRecord debates).
  { unfold debateTexts. apply map_ext. intros d. apply debateText_flattenRecord. }
  split; [exact Heq|].
  rewrite Heq. clear Heq.
  induction debates as [|d rest IH]; constructor; [reflexivity|exact IH].
Qed.

Example flattening_cats :
  debateTexts [catsDebate]
  = ["Debate on " +:+ dquote +:+ "Cats" +:+ dquote +:+ " (Client: u1):" +:+ newline
     +:+ "user: Cats are independent." +:+ newline +:+ "ai: Dogs are loyal."].
Proof. reflexivity. Qed.

(** ** The Chunker *)

Section ChunkerFacts.
Import Chunker.

Lemma last_boundary_bounds (P : nat -> bool) (lo n c : nat) :
  last_boundary P lo n = Some c -> lo < c <= lo + n.
Proof.
  induction n as [|n IH]; simpl; [discriminate|].
  destruct (P (lo + S n)); [intros [= <-]; lia|].
  intros H. apply IH in H. lia.
Qed.

(** With an overlap smaller than the maximum, the cut takes more than the
    overlap and at most the maximum. *)
Lemma cut_bounds (M ov : nat) (s : text) : ov < M -> ov < cut M ov s <= M.
Proof.
  intros Hov. unfold cut.
  destruct (last_boundary (paragraph_end s) ov (M - ov)) eqn:Hp;
    [apply last_boundary_bounds in Hp; lia|].
  destruct (last_boundary (sentence_end s) ov (M - ov)) eqn:Hs;
    [apply last_boundary_bounds in Hs; lia|].
  destruct (last_boundary (word_end s) ov (M - ov)) eqn:Hw;
    [apply last_boundary_bounds in Hw; lia|].
  lia.
Qed.

Lemma chunks_short (M ov : nat) (s : text) : length s <= M -> chunks M ov s = [s].
Proof.
  intros H. rewrite chunks_equation_1.
  destruct (decide (length s <= M)); [reflexivity|lia].
Qed.

Lemma chunks_long (M ov : nat) (s : text) :
  ov < M -> M < length s ->
  chunks M ov s = take (cut M ov s) s :: chunks M ov (drop (cut M ov s - ov) s).
Proof.
  intros Hov Hlen. pose proof (cut_bounds M ov s Hov) as Hcut.
  rewrite chunks_equation_1.
  destruct (decide (length s <= M)); [lia|]. simpl.
  destruct (decide (0 < cut M ov s - ov)); [reflexivity|lia].
Qed.

(** The first chunk starts the text. *)
Lemma chunks_head (M ov : nat) (s : text) :
  ov < M ->
  exists c rest, chunks M ov s = c :: rest
                 /\ take ov c = take ov s
                 /\ (ov < length s -> ov < length c).
Proof.
  intros Hov. destruct (decide (length s <= M)) as [Hshort|Hlong].
  - exists s, []. rewrite chunks_short by exact Hshort. auto.
  - pose proof (cut_bounds M ov s Hov) as Hcut.
    exists (take (cut M ov s) s), (chunks M ov (drop (cut M ov s - ov) s)).
    rewrite chunks_long by lia. split; [reflexivity|]. split.
    + rewrite take_take. f_equal. lia.
    + intros _. rewrite length_take. lia.
Qed.

Lemma chunks_bounded (M ov : nat) (s : text) :
  ov < M -> Forall (fun c => length c <= M) (chunks M ov s).
Proof.
  intros Hov. remember (length s) as n eqn:Hn. revert s Hn.
  induction n as [n IH] using lt_wf_ind. intros s ->.
  destruct (decide (length s <= M)) as [Hshort|Hlong].
  - rewrite chunks_short by exact Hshort. constructor; [exact Hshort|constructor].
  - pose proof (cut_bounds M ov s Hov) as Hcut.
    rewrite chunks_long by lia. constructor.
    + rewrite length_take. lia.
    + apply (IH (length (drop (cut M ov s - ov) s))); [|reflexivity].
      rewrite length_drop. lia.
Qed.

(** Consecutive chunks share exactly [ov] characters. *)
Lemma chunks_overlap (M ov : nat) (s : text) :
  ov < M ->
  forall i c1 c2,
    chunks M ov s !! i = Some c1 ->
    chunks M ov s !! S i = Some c2 ->
    ov < length c1 /\ ov < length c2
    /\ drop (length c1 - ov) c1 = take ov c2.
Proof.
  intros Hov. remember (length s) as n eqn:Hn. revert s Hn.
  induction n as [n IH] using lt_wf_ind. intros s -> i c1 c2.
  destruct (decide (length s <= M)) as [Hshort|Hlong].
  { rewrite chunks_short by exact Hshort. intros _ H2. discriminate H2. }
  pose proof (cut_bounds M ov s Hov) as Hcut.
  rewrite chunks_long by lia.
  set (c := cut M ov s) in *. set (s' := drop (c - ov) s).
  assert (Hlen' : length s' = length s - (c - ov)) by apply length_drop.
  destruct i as [|i]; simpl.
  - intros [= <-] H2.
    destruct (chunks_head M ov s' Hov) as (h & rest & Hch & Htake & Hlong').
    rewrite Hch in H2. simpl in H2. injection H2 as <-.
    rewrite length_take.
    replace (c `min` length s) with c by lia.
    split; [lia|]. split; [apply Hlong'; lia|].
    rewrite Htake. unfold s'.
    rewrite take_drop_commute. f_equal. f_equal. lia.
  - intros H1 H2.
    apply (IH (length s')) with (s := s') (i := i); [lia|reflexivity|exact H1|exact H2].
Qed.

Lemma length_string_of_list (l : text) :
  String.length (String.string_of_list_ascii l) = length l.
Proof. induction l as [|a l IH]; simpl; [reflexivity|]. now rewrite IH. Qed.

Lemma substring_of_list (l : text) (n m : nat) :
  String.substring n m (String.string_of_list_ascii l)
  = String.string_of_list_ascii (take m (drop n l)).
Proof.
  revert n m. induction l as [|a l IH]; intros [|n] [|m]; simpl; try reflexivity.
  - rewrite IH. reflexivity.
  - rewrite IH. reflexivity.
  - rewrite IH. reflexivity.
Qed.

Lemma lookup_map {A B} (f : A -> B) (l : list A) (i : nat) :
  map f l !! i = f <$> (l !! i).
Proof.
  revert i. induction l as [|x l IH]; intros [|i]; simpl; try reflexivity. apply IH.
Qed.

Lemma splitText_lookup (M ov : nat) (blob c : string) (i : nat) :
  splitText M ov blob !! i = Some c ->
  exists l, chunks M ov (String.list_ascii_of_string blob) !! i = Some l
            /\ c = String.string_of_list_ascii l.
Proof.
  unfold splitText. rewrite lookup_map.
  intros H. apply fmap_Some in H as (l & Hl & ->). eauto.
Qed.

End ChunkerFacts.

(** C9: a non-empty text blob strictly shorter than the maximum chunk size
    is chunked into exactly one chunk, the blob itself. *)
Theorem short_blob_single_chunk (M ov : nat) (blob : string) :
  blob <> EmptyString ->
  String.length blob < M ->
  Chunker.splitText M ov blob = [blob]
  /\ (ov < M -> Chunker.createDocuments M ov [blob] = Ok [mkDoc blob]).
Proof.
  intros _ Hlen.
  assert (Hsplit : Chunker.splitText M ov blob = [blob]).
  { unfold Chunker.splitText.
    rewrite chunks_short.
    - simpl. now rewrite String.string_of_list_ascii_of_string.
    - rewrite <- (String.string_of_list_ascii_of_string blob) in Hlen.
      rewrite length_string_of_list in Hlen. lia. }
  split; [exact Hsplit|].
  intros Hov. unfold Chunker.createDocuments.
  destruct (decide (ov < M)); [|lia].
  simpl. rewrite Hsplit. reflexivity.
Qed.

Lemma short_blob_single_chunk_witness :
  Chunker.splitText (chunkSize ServerFaiss) (chunkOverlap ServerFaiss) (debateText catsDebate)
  = [debateText catsDebate].
Proof.
  apply (short_blob_single_chunk 1000 200 (debateText catsDebate)).
  - discriminate.
  - vm_compute. lia.
Defined.

(** C3: chunking a non-empty blob with maximum size [M] and overlap [ov],
    [ov < M], yields chunks of at most [M] characters each; when the blob is
    longer than [M], the last [ov] characters of every chunk equal the first
    [ov] characters of the chunk that follows it. *)
Theorem chunks_bounded_and_overlapping (M ov : nat) (blob : string) :
  ov < M ->
  blob <> EmptyString ->
  Forall (fun c => String.length c <= M) (Chunker.splitText M ov blob)
  /\ (M < String.length blob ->
      forall i c1 c2,
        Chunker.splitText M ov blob !! i = Some c1 ->
        Chunker.splitText M ov blob !! S i = Some c2 ->
        Chunker.last_chars ov c1 = Chunker.first_chars ov c2
        /\ String.length (Chunker.last_chars ov c1) = ov).
Proof.
  intros Hov _. split.
  - unfold Chunker.splitText. apply Forall_forall. intros c Hin.
    apply list_elem_of_In, in_map_iff in Hin as (l & <- & Hin).
    rewrite length_string_of_list.
    pose proof (chunks_bounded M ov (String.list_ascii_of_string blob) Hov) as Hall.
    rewrite Forall_forall in Hall. apply Hall, list_elem_of_In, Hin.
  - intros _ i c1 c2 H1 H2.
    apply splitText_lookup in H1 as (l1 & H1 & ->).
    apply splitText_lookup in H2 as (l2 & H2 & ->).
    destruct (chunks_overlap M ov _ Hov i l1 l2 H1 H2) as (Hl1 & Hl2 & Hshare).
    unfold Chunker.last_chars, Chunker.first_chars.
    rewrite !substring_of_list, !length_string_of_list.
    rewrite drop_0, <- Hshare.
    rewrite take_ge by (rewrite length_drop; lia).
    split; [reflexivity|]. rewrite length_drop. lia.
Qed.

Lemma chunks_bounded_and_overlapping_witness :
  let blob := debateText marsDebate in
  chunkOverlap ServerFaiss < chunkSize ServerFaiss
  /\ blob <> EmptyString
  /\ chunkSize ServerFaiss < String.length blob
  /\ Forall (fun c => String.length c <= 1000) (Chunker.splitText 1000 200 blob)
  /\ (forall i c1 c2,
        Chunker.splitText 1000 200 blob !! i = Some c1 ->
        Chunker.splitText 1000 200 blob !! S i = Some c2 ->
        Chunker.last_chars 200 c1 = Chunker.first_chars 200 c2
        /\ String.length (Chunker.last_chars 200 c1) = 200).
Proof.
  assert (Hov : 200 < 1000) by lia.
  assert (Hne : debateText marsDebate <> EmptyString) by discriminate.
  assert (Hlong : 1000 < String.length (debateText marsDebate)) by (vm_compute; lia).
  destruct (chunks_bounded_and_overlapping 1000 200 (debateText marsDebate) Hov Hne)
    as [Hbound Hoverlap].
  repeat split; try assumption.
  - apply (Hoverlap Hlong i c1 c2); assumption.
  - apply (Hoverlap Hlong i c1 c2); assumption.
Defined.

Example empty_sequence_no_chunks :
  Chunker.createDocuments 1000 200 [] = Ok [].
Proof. reflexivity. Qed.

Example mars_chunk_lengths :
  String.length (debateText marsDebate) = 1477
  /\ map String.length (Chunker.splitText 2000 200 (debateText marsDebate)) = [1477]
  /\ map String.length (Chunker.splitText 1000 200 (debateText marsDebate)) = [990; 687].
Proof. vm_compute. repeat split. Qed.

(** ** The Vector Index *)

Section QueryFacts.
Import VectorIndex.
Variable q : Vec.

Lemma place_perm (e : Ranked) (best : list Ranked) : place q e best ≡ₚ e :: best.
Proof.
  induction best as [|b rest IH]; simpl; [reflexivity|].
  destruct (Qlt_le_dec (score q b) (score q e)); [reflexivity|].
  rewrite IH. apply Permutation_swap.
Qed.

(** Placing a later entry into a ranked list keeps it ranked. *)
Lemma place_sorted (e : Ranked) (best : list Ranked) :
  StronglySorted (before q) best ->
  Forall (fun b : Ranked => b.1 < e.1) best ->
  StronglySorted (before q) (place q e best).
Proof.
  induction best as [|b rest IH]; intros Hsorted Hpos; simpl.
  - repeat constructor.
  - apply StronglySorted_cons in Hsorted as [Hb Hrest].
    apply Forall_cons in Hpos as [Hbpos Hrestpos].
    destruct (Qlt_le_dec (score q b) (score q e)) as [Hlt|Hle].
    + apply StronglySorted_cons. split.
      * constructor; [left; exact Hlt|].
        eapply Forall_impl; [exact Hb|]. intros x Hbx. left.
        destruct Hbx as [Hx|[Hx _]].
        -- eapply Qlt_trans; eassumption.
        -- rewrite <- Hx. exact Hlt.
      * apply StronglySorted_cons. split; assumption.
    + apply StronglySorted_cons. split; [|apply IH; assumption].
      rewrite place_perm. constructor; [|exact Hb].
      apply Qle_lt_or_eq in Hle as [Hlt|Heq]; [left; exact Hlt|].
      right. split; [symmetry; exact Heq|exact Hbpos].
Qed.

Lemma foldl_place_perm (entries acc : list Ranked) :
  foldl (fun best e => place q e best) acc entries ≡ₚ acc ++ entries.
Proof.
  revert acc. induction entries as [|e rest IH]; intros acc; simpl.
  - now rewrite app_nil_r.
  - rewrite IH, place_perm. simpl. apply Permutation_middle.
Qed.

Lemma foldl_place_sorted (entries acc : list Ranked) :
  StronglySorted (before q) acc ->
  StronglySorted (fun a b : Ranked => a.1 < b.1) entries ->
  (forall a e : Ranked, a ∈ acc -> e ∈ entries -> a.1 < e.1) ->
  StronglySorted (before q) (foldl (fun best e => place q e best) acc entries).
Proof.
  revert acc. induction entries as [|e rest IH]; intros acc Hacc Hpos Hcross; simpl.
  - exact Hacc.
  - apply StronglySorted_cons in Hpos as [He Hrest].
    apply IH; [|exact Hrest|].
    + apply place_sorted; [exact Hacc|].
      apply Forall_forall. intros b Hb. apply Hcross; [exact Hb|left].
    + intros a x Ha Hx. rewrite place_perm in Ha.
      apply elem_of_cons in Ha as [->|Ha].
      * rewrite Forall_forall in He. apply He, Hx.
      * apply Hcross; [exact Ha|right; exact Hx].
Qed.

Lemma number_lookup (entries : list IndexEntry) (k : nat) (r : Ranked) :
  r ∈ number k entries <-> exists i, r.1 = k + i /\ entries !! i = Some r.2.
Proof.
  revert k. induction entries as [|e rest IH]; intros k; simpl.
  - split; [intros H; inversion H|intros (i & _ & H); discriminate H].
  - rewrite elem_of_cons, IH. split.
    + intros [->|(i & Hpos & Hi)].
      * exists 0. split; [simpl; lia|reflexivity].
      * exists (S i). split; [lia|exact Hi].
    + intros ([|i] & Hpos & Hi).
      * left. simpl in Hi. injection Hi as Hi. destruct r as [p x]. simpl in *.
        f_equal; [lia|congruence].
      * right. exists i. split; [lia|exact Hi].
Qed.

Lemma number_sorted (entries : list IndexEntry) (k : nat) :
  StronglySorted (fun a b : Ranked => a.1 < b.1) (number k entries).
Proof.
  revert k. induction entries as [|e rest IH]; intros k; simpl; constructor.
  - apply IH.
  - apply Forall_forall. intros r Hr.
    apply number_lookup in Hr as (i & Hpos & _). simpl. lia.
Qed.

Lemma length_number (entries : list IndexEntry) (k : nat) :
  length (number k entries) = length entries.
Proof. revert k. induction entries as [|e rest IH]; intros k; simpl; [|rewrite IH]; reflexivity. Qed.

Lemma scan_perm (entries : list Ranked) : scan q entries ≡ₚ entries.
Proof. unfold scan. now rewrite foldl_place_perm. Qed.

Lemma scan_sorted (index : list IndexEntry) :
  StronglySorted (before q) (scan q (number 0 index)).
Proof.
  unfold scan. apply foldl_place_sorted.
  - constructor.
  - apply number_sorted.
  - intros a e Ha. inversion Ha.
Qed.

Lemma query_length (index : list IndexEntry) (k : nat) :
  length (query q index k) = k `min` length index.
Proof.
  unfold query. rewrite length_take, scan_perm, length_number. reflexivity.
Qed.

End QueryFacts.

(** C7: for every index and query vector the retrieval step, run with
    [K = 5], returns [min 5 n] of the [n] entries -- at most five, fewer when
    the index holds fewer, none when it is empty -- ordered by descending
    cosine similarity with ties in insertion order, and every entry left
    out ranks after every entry returned. *)
Theorem retrieval_top_k (q : Vec) (index : list IndexEntry) :
  let result := VectorIndex.query q index retrieverK in
  length result = retrieverK `min` length index
  /\ length result <= 5
  /\ (length index = 0 -> result = [])
  /\ StronglySorted (VectorIndex.before q) result
  /\ (forall r : VectorIndex.Ranked, r ∈ result -> index !! r.1 = Some r.2)
  /\ (forall (i : nat) (e : IndexEntry),
        index !! i = Some e -> (i, e) ∉ result ->
        forall r : VectorIndex.Ranked, r ∈ result -> VectorIndex.before q r (i, e)).
Proof.
  intros result. unfold result, VectorIndex.query.
  set (ranked := VectorIndex.scan q (VectorIndex.number 0 index)).
  assert (Hperm : ranked ≡ₚ VectorIndex.number 0 index) by apply scan_perm.
  assert (Hsorted : StronglySorted (VectorIndex.before q) ranked) by apply scan_sorted.
  assert (Hlen : length ranked = length index).
  { rewrite Hperm. apply length_number. }
  rewrite <- (take_drop retrieverK ranked) in Hsorted.
  split; [rewrite length_take, Hlen; reflexivity|].
  split; [rewrite length_take; unfold retrieverK; lia|].
  split.
  { intros Hempty. apply nil_length_inv. rewrite length_take, Hlen, Hempty. lia. }
  split; [eapply StronglySorted_app_1_l; exact Hsorted|].
  split.
  - intros r Hr.
    assert (Hin : r ∈ ranked).
    { rewrite <- (take_drop retrieverK ranked). apply elem_of_app. left. exact Hr. }
    rewrite Hperm in Hin. apply number_lookup in Hin as (i & Hpos & Hi).
    simpl in Hpos. rewrite Hpos. exact Hi.
  - intros i e Hi Hout r Hr.
    assert (Hin : (i, e) ∈ ranked).
    { rewrite Hperm. apply number_lookup. exists i. split; [reflexivity|exact Hi]. }
    rewrite <- (take_drop retrieverK ranked) in Hin.
    apply elem_of_app in Hin as [Hin|Hin]; [contradiction|].
    eapply StronglySorted_app_1_elem_of; eassumption.
Qed.

Lemma retrieval_top_k_witness :
  map (fun r : VectorIndex.Ranked => (r.1, pageContent (entry_doc r.2)))
    (VectorIndex.query [1%Q; 0%Q] sampleIndex retrieverK)
  = [(0, "a"); (2, "c"); (5, "f"); (4, "e"); (1, "b")]
  /\ length (VectorIndex.query [1%Q; 0%Q] sampleIndex retrieverK) = 5
  /\ StronglySorted (VectorIndex.before [1%Q; 0%Q])
       (VectorIndex.query [1%Q; 0%Q] sampleIndex retrieverK)
  /\ VectorIndex.query [1%Q; 0%Q] [] retrieverK = [].
Proof.
  split; [vm_compute; reflexivity|].
  destruct (retrieval_top_k [1%Q; 0%Q] sampleIndex) as (Hlen & _ & _ & Hsorted & _).
  destruct (retrieval_top_k [1%Q; 0%Q] []) as (_ & _ & Hempty & _).
  split; [exact Hlen|]. split; [exact Hsorted|]. apply Hempty. reflexivity.
Defined.

(** What the retriever hands back has the length the query has. *)
Lemma retrieve_at_most_k embed (vs : VectorStore) (input : ChainVal) (docs : list Document) :
  VectorIndex.retrieve embed vs retrieverK input = Ok docs ->
  length docs = retrieverK `min` length (store_entries vs).
Proof.
  unfold VectorIndex.retrieve.
  destruct (embed (store_model vs) input) as [qv|e]; [|discriminate].
  intros [= <-]. rewrite length_map.
  apply query_length.
Qed.

(** The sort key grows with the dot product, as the cosine does. *)
Lemma signed_square_increasing (x y : Q) :
  (x < y)%Q -> (VectorIndex.signed_square x < VectorIndex.signed_square y)%Q.
Proof.
  intros Hxy. unfold VectorIndex.signed_square.
  destruct (Qlt_le_dec x 0) as [Hx|Hx], (Qlt_le_dec y 0) as [Hy|Hy]; nra.
Qed.

(** A vector is most similar to itself. *)
Lemma cosine_key_self (v : Vec) :
  (0 < VectorIndex.norm2 v)%Q -> (VectorIndex.cosine_key v v == 1)%Q.
Proof.
  intros Hpos. unfold VectorIndex.cosine_key, VectorIndex.signed_square.
  fold (VectorIndex.norm2 v).
  destruct (Qlt_le_dec (VectorIndex.norm2 v) 0) as [Hneg|_].
  - exfalso. apply (Qlt_irrefl 0). eapply Qlt_trans; eassumption.
  - field. intros Hz. rewrite Hz in Hpos. apply (Qlt_irrefl 0 Hpos).
Qed.

(** ** The two variants *)

Lemma bind_call_ok {A B} (ev : Event) (a : A) (f : A -> M B) :
  bind (call ev (Ok a)) f = (ev :: (f a).1, (f a).2).
Proof. unfold bind, call. destruct (f a). reflexivity. Qed.

Lemma bind_call_throw {A B} (ev : Event) (e : JsError) (f : A -> M B) :
  bind (call ev (Throw e)) f = ([ev], Throw e).
Proof. reflexivity. Qed.

Lemma try_catch_cons {A} (ev : Event) (m : M A) (h : JsError -> list Event * A) :
  try_catch (ev :: m.1, m.2) h = (ev :: (try_catch m h).1, (try_catch m h).2).
Proof.
  destruct m as [t [a|e]]; simpl; [reflexivity|]. destruct (h e). reflexivity.
Qed.

(** After a non-empty load, either variant hands the flattened records to
    the splitter, with its own chunk size. *)
Lemma chatRag_splits_loaded_records v env reqBody debates :
  truthy (get reqBody "question") = true ->
  Debate_find env (ragFilter reqBody) = Ok debates ->
  debates <> [] ->
  exists t,
    (chatRag v env reqBody).1
    = EvFind (ragFilter reqBody)
        :: EvCreateDocuments (chunkSize v) (chunkOverlap v) (debateTexts debates) :: t.
Proof.
  intros Hq Hfind Hne. unfold chatRag. rewrite Hq. simpl negb. cbv iota.
  unfold ragPipeline. fold (ragFilter reqBody). rewrite Hfind, bind_call_ok.
  destruct debates as [|d rest]; [contradiction|].
  cbn [length Nat.eqb].
  rewrite try_catch_cons. cbn [fst].
  match goal with
  | |- context [try_catch (bind (call ?ev ?r) ?f) ?h] =>
      destruct (try_catch_call_head ev r f h) as (t & x & Hrun)
  end.
  rewrite Hrun. eauto.
Qed.

(** In the FAISS variant the chain is never built: [.pipe] is called on an
    arrow function, which throws inside the [try] block.  Its only
    successful answer is the empty-history reply, and neither the retriever
    nor the generator is ever called. *)
Lemma faiss_chain_never_built env question cid t r :
  ragPipeline ServerFaiss env question cid = (t, r) ->
  (forall resp, r = Ok resp -> resp = success_reply noHistoryReply)
  /\ existsb (fun ev => match ev with
                        | EvRetrieve _ _ _ | EvGenerate _ => true
                        | _ => false
                        end) t = false.
Proof.
  unfold ragPipeline.
  set (query := if truthy cid then FClientId cid else FEmpty).
  destruct (Debate_find env query) as [debates|e];
    [rewrite bind_call_ok|rewrite bind_call_throw; intros [= <- <-]; split; [discriminate|reflexivity]].
  destruct (Nat.eqb (length debates) 0).
  { intros [= <- <-]. split; [intros resp [= <-]; reflexivity|reflexivity]. }
  destruct (createDocuments env _ _ _) as [docs|e];
    [rewrite bind_call_ok|rewrite bind_call_throw; intros [= <- <-]; split; [discriminate|reflexivity]].
  destruct (newEmbeddings env _) as [[]|e];
    [rewrite bind_call_ok|rewrite bind_call_throw; intros [= <- <-]; split; [discriminate|reflexivity]].
  destruct (fromDocuments env _ _ _) as [vs|e];
    [rewrite bind_call_ok|rewrite bind_call_throw; intros [= <- <-]; split; [discriminate|reflexivity]].
  destruct (newChatGroq env _) as [[]|e];
    [rewrite bind_call_ok|rewrite bind_call_throw; intros [= <- <-]; split; [discriminate|reflexivity]].
  simpl. intros [= <- <-]. split; [discriminate|reflexivity].
Qed.

Lemma splitText_short (M ov : nat) (blob : string) :
  String.length blob <= M -> Chunker.splitText M ov blob = [blob].
Proof.
  intros Hlen. unfold Chunker.splitText. rewrite chunks_short.
  - simpl. now rewrite String.string_of_list_ascii_of_string.
  - rewrite <- (String.string_of_list_ascii_of_string blob) in Hlen.
    rewrite length_string_of_list in Hlen. exact Hlen.
Qed.


(** ** Requests without a client id *)

Lemma insert_newest_perm (d : Debate) (l : list Debate) : insert_newest d l ≡ₚ d :: l.
Proof.
  induction l as [|x rest IH]; simpl; [reflexivity|].
  destruct (Z.ltb (createdAt x) (createdAt d)); [reflexivity|].
  rewrite IH. apply Permutation_swap.
Qed.

Lemma newest_first_perm (l : list Debate) : newest_first l ≡ₚ l.
Proof.
  induction l as [|d rest IH]; simpl; [reflexivity|].
  rewrite insert_newest_perm, IH. reflexivity.
Qed.

Lemma filter_empty_filter cast_match (db : list Debate) :
  filter (fun d => matches cast_match FEmpty d = true) db = db.
Proof.
  induction db as [|d rest IH]; [reflexivity|].
  rewrite filter_cons_True by reflexivity. now rewrite IH.
Qed.

(** The empty filter loads the whole collection. *)
Lemma store_find_all cast_match (db : list Debate) :
  exists loaded, store_find cast_match db FEmpty = Ok loaded /\ loaded ≡ₚ db.
Proof.
  exists (newest_first db). unfold store_find. rewrite filter_empty_filter.
  split; [reflexivity|apply newest_first_perm].
Qed.

(** C10: when the body of a [POST /api/chat/rag] request has no [clientId]
    (or a falsy one), the filter is empty, the store returns every record of
    every client, all of them are flattened and handed to the splitter, and
    the reply of [server3.js] to one and the same request changes with a
    record that belongs to another client. *)
Theorem missing_clientId_loads_all cast_match save embed generate
    (db : list Debate) (v : Variant) (reqBody : gmap string JsVal) :
  truthy (get reqBody "question") = true ->
  truthy (get reqBody "clientId") = false ->
  ragFilter reqBody = FEmpty
  /\ (exists loaded,
        Debate_find (specEnv cast_match save embed generate db) (ragFilter reqBody) = Ok loaded
        /\ loaded ≡ₚ db
        /\ (db <> [] ->
            exists t,
              (chatRag v (specEnv cast_match save embed generate db) reqBody).1
              = EvFind FEmpty
                  :: EvCreateDocuments (chunkSize v) 200 (debateTexts loaded) :: t))
  /\ clientId dogsDebate <> clientId catsDebate
  /\ body (chatRag ServerMemory (demoEnv [catsDebate]) reqBody).2 !! "reply"
     = Some (pstr (debateText catsDebate))
  /\ body (chatRag ServerMemory (demoEnv [dogsDebate; catsDebate]) reqBody).2 !! "reply"
     = Some (pstr (debateText dogsDebate +:+ newline +:+ newline +:+ debateText catsDebate)).
Proof.
  intros Hq Hc.
  assert (Hfilter : ragFilter reqBody = FEmpty) by (unfold ragFilter; now rewrite Hc).
  split; [exact Hfilter|]. split.
  - destruct (store_find_all cast_match db) as (loaded & Hfind & Hperm).
    exists loaded. rewrite Hfilter. split; [exact Hfind|]. split; [exact Hperm|].
    intros Hne.
    assert (Hloaded : loaded <> []).
    { intros ->. apply Permutation_nil_l in Hperm. symmetry in Hperm. contradiction. }
    destruct (chatRag_splits_loaded_records v (specEnv cast_match save embed generate db)
                reqBody loaded Hq) as (t & Hrun); [rewrite Hfilter; exact Hfind|exact Hloaded|].
    rewrite Hfilter in Hrun. eauto.
  - split; [discriminate|].
    unfold chatRag. rewrite Hq. simpl negb. cbv iota.
    unfold ragPipeline. rewrite Hc.
    generalize (get reqBody "question"). intros question.
    split; vm_compute; reflexivity.
Qed.

Lemma missing_clientId_loads_all_witness :
  let reqBody : gmap string JsVal := {[ "question" := VStr "What did I argue?" ]} in
  truthy (get reqBody "question") = true
  /\ truthy (get reqBody "clientId") = false
  /\ ragFilter reqBody = FEmpty
  /\ body (chatRag ServerMemory (demoEnv [dogsDebate; catsDebate]) reqBody).2 !! "reply"
     = Some (pstr (debateText dogsDebate +:+ newline +:+ newline +:+ debateText catsDebate)).
Proof.
  assert (Hq : truthy (get {[ "question" := VStr "What did I argue?" ]} "question") = true)
    by reflexivity.
  assert (Hc : truthy (get {[ "question" := VStr "What did I argue?" ]} "clientId") = false)
    by reflexivity.
  split; [exact Hq|]. split; [exact Hc|].
  destruct (missing_clientId_loads_all noCast rejectSave unitEmbed echoContext
              [dogsDebate; catsDebate] ServerMemory
              {[ "question" := VStr "What did I argue?" ]} Hq Hc)
    as (Hfilter & _ & _ & _ & Hreply).
  split; [exact Hfilter|exact Hreply].
Defined.

(** ** Supporting facts on the two variants *)

(** Any splitter that honours the Chunker contract for an overlap below the
    maximum (a blob no longer than the maximum is its own single chunk, and
    no chunk exceeds the maximum) produces different chunks at the two
    configured sizes for a blob of more than 1000 and at most 2000
    characters. *)
Lemma chunk_sizes_tell_variants_apart (split : nat -> nat -> string -> list string)
    (blob : string) :
  (forall M ov b, ov < M -> String.length b <= M -> split M ov b = [b]) ->
  (forall M ov b c, ov < M -> c ∈ split M ov b -> String.length c <= M) ->
  chunkSize ServerFaiss < String.length blob <= chunkSize ServerMemory ->
  split (chunkSize ServerMemory) (chunkOverlap ServerMemory) blob
  <> split (chunkSize ServerFaiss) (chunkOverlap ServerFaiss) blob.
Proof.
  simpl chunkSize. unfold chunkOverlap. intros Hone Hbound [Hlo Hhi] Heq.
  rewrite (Hone 2000 200 blob) in Heq by lia.
  assert (Hin : blob ∈ split 1000 200 blob) by (rewrite <- Heq; left).
  apply Hbound in Hin; lia.
Qed.

(** The modelled Chunker is such a splitter. *)
Lemma splitText_tells_variants_apart (blob : string) :
  chunkSize ServerFaiss < String.length blob <= chunkSize ServerMemory ->
  Chunker.splitText (chunkSize ServerMemory) (chunkOverlap ServerMemory) blob
  <> Chunker.splitText (chunkSize ServerFaiss) (chunkOverlap ServerFaiss) blob.
Proof.
  apply (chunk_sizes_tell_variants_apart Chunker.splitText).
  - intros M ov b _ Hlen. now apply splitText_short.
  - intros M ov b c Hov Hin. unfold Chunker.splitText in Hin.
    apply list_elem_of_In, in_map_iff in Hin as (l & <- & Hin).
    rewrite length_string_of_list.
    pose proof (chunks_bounded M ov (String.list_ascii_of_string b) Hov) as Hall.
    rewrite Forall_forall in Hall. apply Hall, list_elem_of_In, Hin.
Qed.

Lemma get_prop_chainInput (question : JsVal) :
  get_prop (chainInput question) "question" = question.
Proof. unfold get_prop, chainInput, get. now rewrite lookup_singleton_eq. Qed.

(** * Further properties of the handlers *)

(** ** Every run of the RAG pipeline *)

Lemma ragPipeline_runs v env question cid :
  RagRun v env (if truthy cid then FClientId cid else FEmpty) question
    (ragPipeline v env question cid).1 (ragPipeline v env question cid).2.
Proof.
  unfold ragPipeline.
  set (f := if truthy cid then FClientId cid else FEmpty).
  destruct (Debate_find env f) as [debates|e] eqn:Hfind;
    [rewrite bind_call_ok|rewrite bind_call_throw; eapply RunLoadFails; eauto].
  destruct (Nat.eqb (length debates) 0) eqn:Hlen.
  { apply Nat.eqb_eq in Hlen. simpl. eapply RunEmptyHistory; eauto. }
  apply Nat.eqb_neq in Hlen.
  destruct (createDocuments env _ _ _) as [splitDocs|e] eqn:Hsplit;
    [rewrite bind_call_ok|rewrite bind_call_throw; eapply RunSplitFails; eauto].
  destruct (newEmbeddings env _) as [[]|e] eqn:Hemb;
    [rewrite bind_call_ok|rewrite bind_call_throw; eapply RunEmbedderFails; eauto].
  destruct (fromDocuments env _ _ _) as [vectorStore|e] eqn:Hidx;
    [rewrite bind_call_ok|rewrite bind_call_throw; eapply RunIndexFails; eauto].
  destruct (newChatGroq env _) as [[]|e] eqn:Hmodel;
    [rewrite bind_call_ok|rewrite bind_call_throw; eapply RunModelFails; eauto].
  destruct v.
  - unfold lift, contextChain, method_pipe, invokeChain.
    cbn [bind fst snd run call ret app].
    destruct (retriever_invoke env vectorStore retrieverK (CJs (chainInput question)))
      as [found|e] eqn:Hretr.
    + cbn [bind fst snd app ret]. rewrite get_prop_chainInput.
      fold (ragPrompt found question).
      destruct (model_invoke env (ragPrompt found question)) as [reply|e] eqn:Hgen.
      * eapply RunAnswer; eauto.
      * eapply RunGenerateFails; eauto.
    + eapply RunRetrieveFails; eauto.
  - eapply RunPipeFails; eauto.
Qed.

Lemma chatRag_cases v env reqBody :
  (truthy (get reqBody "question") = false
   /\ chatRag v env reqBody = ([], questionRequired))
  \/ (truthy (get reqBody "question") = true
      /\ exists t r,
           RagRun v env (ragFilter reqBody) (get reqBody "question") t r
           /\ chatRag v env reqBody = ragOutcome t r).
Proof.
  destruct (truthy (get reqBody "question")) eqn:Hq.
  - right. split; [reflexivity|].
    pose proof (ragPipeline_runs v env (get reqBody "question") (get reqBody "clientId"))
      as Hrun.
    fold (ragFilter reqBody) in Hrun.
    unfold chatRag. rewrite Hq. simpl negb. cbv iota.
    destruct (ragPipeline v env (get reqBody "question") (get reqBody "clientId"))
      as [t r].
    exists t, r. split; [exact Hrun|]. destruct r; reflexivity.
  - left. split; [reflexivity|]. now apply chatRag_rejects_falsy_question.
Qed.

Lemma success_reply_inj (a b : string) : success_reply a = success_reply b -> a = b.
Proof.
  intros H. apply (f_equal (fun r => body r !! "reply")) in H.
  unfold success_reply in H. simpl in H.
  rewrite !lookup_insert_ne, !lookup_insert_eq in H by discriminate.
  now injection H.
Qed.

(** X1: every answer of [POST /api/chat/rag] has one of three shapes: a reply
    with status 200, the 400 for a missing question, or the generic 500.
    The status is 400 exactly when the question is falsy, and [success] is
    [true] exactly when the status is 200. *)
Theorem chatRag_response_shapes v env reqBody :
  ((exists reply, (chatRag v env reqBody).2 = success_reply reply)
   \/ (chatRag v env reqBody).2 = questionRequired
   \/ (chatRag v env reqBody).2 = ragError)
  /\ (status (chatRag v env reqBody).2 = 400 <-> truthy (get reqBody "question") = false)
  /\ (status (chatRag v env reqBody).2 = 200
      <-> success_flag (chatRag v env reqBody).2 = Some (pbool true)).
Proof.
  destruct (chatRag_cases v env reqBody) as [[Hq Hrun]|[Hq (t & r & Hrun & Houtcome)]].
  - rewrite Hrun. split; [right; left; reflexivity|].
    split; [split; [intros _; exact Hq|reflexivity]|].
    split; intros H; discriminate H.
  - rewrite Houtcome.
    assert (Hshape : (exists reply, (ragOutcome t r).2 = success_reply reply)
                     \/ (ragOutcome t r).2 = ragError).
    { inversion Hrun; subst; simpl; eauto. }
    split; [destruct Hshape as [Hok|Herr]; [left; exact Hok|right; right; exact Herr]|].
    destruct Hshape as [[reply Hok]|Herr].
    + rewrite Hok. split; [split; intros H; [discriminate H|congruence]|].
      split; reflexivity.
    + rewrite Herr. split; [split; intros H; [discriminate H|congruence]|].
      split; intros H; discriminate H.
Qed.

(** X2: a [POST /api/chat/rag] request reads the store once when the question
    is truthy and never otherwise; the read is the [find] with the filter
    built from [clientId], and it comes first.  The route never writes. *)
Theorem chatRag_reads_store_once v env reqBody :
  count_events queries_store (chatRag v env reqBody).1
  = (if truthy (get reqBody "question") then 1 else 0)
  /\ (chatRag v env reqBody).1 !! 0
     = (if truthy (get reqBody "question") then Some (EvFind (ragFilter reqBody)) else None)
  /\ Forall (fun ev => match ev with
                       | EvSave _ | EvFindById _ | EvFindProjected _ => False
                       | _ => True
                       end) (chatRag v env reqBody).1.
Proof.
  destruct (chatRag_cases v env reqBody) as [[Hq Hrun]|[Hq (t & r & Hrun & Houtcome)]].
  - rewrite Hrun, Hq. repeat split. constructor.
  - rewrite Houtcome, Hq.
    inversion Hrun; subst; simpl; repeat split; repeat constructor.
Qed.

(** X3: the pipeline is strictly sequential and fails fast: the collaborator
    calls of a request are the first [n] stages (load, split, embedder,
    index, chat model, retrieve, generate) in that order, each at most once;
    a single log entry closes the trace exactly when the answer is 500. *)
Theorem chatRag_stages_in_order v env reqBody :
  exists n,
    n <= 7
    /\ map stageOf (List.filter (fun ev => negb (is_log ev)) (chatRag v env reqBody).1)
       = map Some (seq 0 n)
    /\ count_events is_log (chatRag v env reqBody).1
       = (if Nat.eqb (status (chatRag v env reqBody).2) 500 then 1 else 0)
    /\ (status (chatRag v env reqBody).2 = 500 ->
        exists e, last (chatRag v env reqBody).1 = Some (EvLog "RAG chat error:" e)).
Proof.
  destruct (chatRag_cases v env reqBody) as [[Hq Hrun]|[Hq (t & r & Hrun & Houtcome)]].
  - rewrite Hrun. exists 0. split; [lia|]. repeat split. intros H. discriminate H.
  - rewrite Houtcome.
    inversion Hrun; subst; simpl;
      [exists 1|exists 1|exists 2|exists 3|exists 4|exists 5|exists 5|exists 6|exists 7|exists 7];
      (split; [lia|]); (split; [reflexivity|]); (split; [reflexivity|]);
      intros Hstatus; try discriminate Hstatus; eexists; reflexivity.
Qed.

(** X4: the FAISS variant never retrieves and never calls the chat model: its
    only reply is the empty-history one, and once the store has returned a
    record the answer is the generic 500, whatever the collaborators do. *)
Theorem faiss_never_answers env reqBody :
  count_events reaches_retrieval (chatRag ServerFaiss env reqBody).1 = 0
  /\ (forall reply,
        (chatRag ServerFaiss env reqBody).2 = success_reply reply ->
        reply = noHistoryReply)
  /\ (forall debates,
        truthy (get reqBody "question") = true ->
        Debate_find env (ragFilter reqBody) = Ok debates ->
        length debates <> 0 ->
        (chatRag ServerFaiss env reqBody).2 = ragError).
Proof.
  destruct (chatRag_cases ServerFaiss env reqBody)
    as [[Hq Hrun]|[Hq (t & r & Hrun & Houtcome)]].
  - rewrite Hrun. split; [reflexivity|]. split.
    + intros reply Hreply. discriminate Hreply.
    + intros debates Hq'. congruence.
  - rewrite Houtcome.
    inversion Hrun; subst; simpl; try discriminate;
      (split; [reflexivity|]); split;
      try (intros reply Hreply; try discriminate Hreply;
           symmetry; now apply success_reply_inj);
      intros ds _ Hfind Hlen; try reflexivity; congruence.
Qed.

Lemma faiss_never_answers_witness :
  let reqBody : gmap string JsVal := {[ "question" := VStr "Who won?" ]} in
  Debate_find (demoEnv [catsDebate]) (ragFilter reqBody) = Ok [catsDebate]
  /\ (chatRag ServerFaiss (demoEnv [catsDebate]) reqBody).2 = ragError
  /\ (chatRag ServerMemory (demoEnv [catsDebate]) reqBody).2
     = success_reply (debateText catsDebate).
Proof.
  split; [reflexivity|]. split; [|vm_compute; reflexivity].
  destruct (faiss_never_answers (demoEnv [catsDebate]) {[ "question" := VStr "Who won?" ]})
    as (_ & _ & Hfail).
  apply (Hfail [catsDebate]); [reflexivity|reflexivity|discriminate].
Defined.

(** X5: when every collaborator succeeds, [server3.js] makes exactly seven
    calls, in order.  The splitter gets the flattened records.  The
    retriever is asked for 5 documents and receives the whole input object
    [{ question }], not the question string.  The chat model gets the fixed
    system template, the retrieved documents joined by blank lines in the
    retriever's order, and the question as sent.  The reply is the model's
    text, unchanged. *)
Theorem memory_full_run env reqBody debates splitDocs vectorStore found reply :
  truthy (get reqBody "question") = true ->
  Debate_find env (ragFilter reqBody) = Ok debates ->
  length debates <> 0 ->
  createDocuments env 2000 200 (debateTexts debates) = Ok splitDocs ->
  newEmbeddings env FastEmbed = Ok tt ->
  fromDocuments env MemoryVectorStore FastEmbed splitDocs = Ok vectorStore ->
  newChatGroq env groqModel = Ok tt ->
  retriever_invoke env vectorStore 5 (CJs (VObj {[ "question" := get reqBody "question" ]}))
  = Ok found ->
  model_invoke env
    (mkPrompt systemTemplate (CJs (VStr (formatDocumentsAsString found)))
       (get reqBody "question")) = Ok reply ->
  chatRag ServerMemory env reqBody
  = ([EvFind (ragFilter reqBody);
      EvCreateDocuments 2000 200 (debateTexts debates);
      EvNewEmbeddings FastEmbed;
      EvFromDocuments MemoryVectorStore FastEmbed splitDocs;
      EvNewChatModel groqModel;
      EvRetrieve vectorStore 5 (CJs (VObj {[ "question" := get reqBody "question" ]}));
      EvGenerate (mkPrompt systemTemplate (CJs (VStr (formatDocumentsAsString found)))
                    (get reqBody "question"))],
     success_reply reply).
Proof.
  intros Hq Hfind Hlen Hsplit Hemb Hidx Hmodel Hretr Hgen.
  destruct (chatRag_cases ServerMemory env reqBody)
    as [[Hq' _]|[_ (t & r & Hrun & Houtcome)]]; [congruence|].
  rewrite Houtcome. clear Houtcome.
  change 2000 with (chunkSize ServerMemory) in Hsplit.
  change 200 with (chunkOverlap ServerMemory) in Hsplit.
  change FastEmbed with (embeddingModel ServerMemory) in Hemb, Hidx.
  change MemoryVectorStore with (storeKind ServerMemory) in Hidx.
  change 5 with retrieverK in Hretr.
  fold (chainInput (get reqBody "question")) in Hretr.
  fold (ragPrompt found (get reqBody "question")) in Hgen.
  inversion Hrun; subst; try congruence;
    repeat match goal with
           | H1 : ?x = Ok ?a, H2 : ?x = Ok ?b |- _ =>
               assert (a = b) by congruence; subst; clear H2
           end;
    try congruence.
  reflexivity.
Qed.

Lemma memory_full_run_witness :
  let reqBody : gmap string JsVal := {[ "question" := VStr "Who won?" ]} in
  (chatRag ServerMemory (demoEnv [catsDebate]) reqBody).2
  = success_reply (debateText catsDebate)
  /\ length (chatRag ServerMemory (demoEnv [catsDebate]) reqBody).1 = 7.
Proof.
  assert (Hq : truthy (get {[ "question" := VStr "Who won?" ]} "question") = true)
    by reflexivity.
  assert (Hrun :=
    memory_full_run (demoEnv [catsDebate]) {[ "question" := VStr "Who won?" ]}
      [catsDebate] [mkDoc (debateText catsDebate)]
      (mkStore MemoryVectorStore FastEmbed
         [mkEntry [1%Q] (mkDoc (debateText catsDebate))])
      [mkDoc (debateText catsDebate)] (debateText catsDebate)
      Hq eq_refl).
  cbv zeta. rewrite Hrun; [split; reflexivity|discriminate|reflexivity..].
Defined.

(** X6: a reply is never made up by the handler: a 200 answer is either the
    empty-history reply after an empty load, or the text the chat model
    returned for the prompt built from what the retriever returned; the
    second happens in [server3.js] only. *)
Theorem replies_come_from_the_model v env reqBody reply :
  (chatRag v env reqBody).2 = success_reply reply ->
  (reply = noHistoryReply
   /\ exists debates,
        Debate_find env (ragFilter reqBody) = Ok debates /\ length debates = 0)
  \/ (v = ServerMemory
      /\ exists vectorStore found,
           retriever_invoke env vectorStore retrieverK
             (CJs (chainInput (get reqBody "question"))) = Ok found
           /\ model_invoke env (ragPrompt found (get reqBody "question")) = Ok reply
           /\ last (chatRag v env reqBody).1
              = Some (EvGenerate (ragPrompt found (get reqBody "question")))).
Proof.
  destruct (chatRag_cases v env reqBody) as [[Hq Hrun]|[Hq (t & r & Hrun & Houtcome)]].
  - rewrite Hrun. intros Hreply. discriminate Hreply.
  - rewrite Houtcome.
    inversion Hrun; subst; simpl; intros Hreply; try discriminate Hreply;
      apply success_reply_inj in Hreply; subst.
    + left. eauto.
    + right. split; [reflexivity|]. eauto.
Qed.

Lemma replies_come_from_the_model_witness :
  let reqBody : gmap string JsVal := {[ "question" := VStr "Who won?" ]} in
  (chatRag ServerMemory (demoEnv [catsDebate]) reqBody).2
  = success_reply (debateText catsDebate)
  /\ exists vectorStore found,
       model_invoke (demoEnv [catsDebate]) (ragPrompt found (VStr "Who won?"))
       = Ok (debateText catsDebate)
       /\ retriever_invoke (demoEnv [catsDebate]) vectorStore retrieverK
            (CJs (chainInput (VStr "Who won?"))) = Ok found.
Proof.
  assert (Hreply : (chatRag ServerMemory (demoEnv [catsDebate])
                      {[ "question" := VStr "Who won?" ]}).2
                   = success_reply (debateText catsDebate))
    by (vm_compute; reflexivity).
  cbv zeta. split; [exact Hreply|].
  destruct (replies_come_from_the_model ServerMemory (demoEnv [catsDebate])
              {[ "question" := VStr "Who won?" ]} (debateText catsDebate) Hreply)
    as [[Hcanned _]|(_ & vs & found & Hretr & Hgen & _)].
  - vm_compute in Hcanned. discriminate Hcanned.
  - exists vs, found. split; [exact Hgen|exact Hretr].
Defined.

(** ** The other routes *)

(** X7: [GET /api/debates/:debateId] reads the store at most once, and only for
    a valid id.  It answers 200 exactly when the id is valid and the store
    returns a record, and then [data] is that record; the status is always
    one of 200, 400, 404, 500, and [success] is [true] exactly on 200. *)
Theorem getDebateById_reads_then_answers env debateId :
  count_events queries_store (getDebateById env debateId).1
  = (if ObjectId_isValid env debateId then 1 else 0)
  /\ (status (getDebateById env debateId).2 = 200
      <-> ObjectId_isValid env debateId = true
          /\ exists d, Debate_findById env debateId = Ok (Some d)
                       /\ body (getDebateById env debateId).2 !! "data" = Some (PDebate d))
  /\ is_read_status (status (getDebateById env debateId).2) = true
  /\ (success_flag (getDebateById env debateId).2 = Some (pbool true)
      <-> status (getDebateById env debateId).2 = 200)
  /\ (status (getDebateById env debateId).2 = 500
      <-> ObjectId_isValid env debateId = true
          /\ exists e, Debate_findById env debateId = Throw e
                       /\ body (getDebateById env debateId).2 !! "error"
                          = Some (pstr (err_message e))).
Proof.
  unfold getDebateById.
  destruct (ObjectId_isValid env debateId) eqn:Hvalid; simpl.
  - destruct (Debate_findById env debateId) as [[d|]|e] eqn:Hfind; simpl.
    + split; [reflexivity|]. split; [split; [intros _; split; [reflexivity|eauto]|reflexivity]|].
      split; [reflexivity|]. split; [split; reflexivity|].
      split; [intros H; discriminate H|intros (_ & e & He & _); discriminate He].
    + split; [reflexivity|].
      split; [split; [intros H; discriminate H|intros (_ & d & Hd & _); discriminate Hd]|].
      split; [reflexivity|]. split; [split; intros H; discriminate H|].
      split; [intros H; discriminate H|intros (_ & e & He & _); discriminate He].
    + split; [reflexivity|].
      split; [split; [intros H; discriminate H|intros (_ & d & Hd & _); discriminate Hd]|].
      split; [reflexivity|]. split; [split; intros H; discriminate H|].
      split; [intros _; split; [reflexivity|eauto]|reflexivity].
  - split; [reflexivity|].
    split; [split; [intros H; discriminate H|intros (H & _); discriminate H]|].
    split; [reflexivity|]. split; [split; intros H; discriminate H|].
    split; [intros H; discriminate H|intros (H & _); discriminate H].
Qed.

(** X8: [POST /api/debates] hands the request body to the store as it is, once.
    It answers 201 with the saved record exactly when the save succeeds,
    400 exactly when the save throws an error named [ValidationError], and
    500 for any other error; every failure carries the error's message. *)
Theorem postDebate_status_by_error env reqBody :
  (postDebate env reqBody).1 !! 0 = Some (EvSave reqBody)
  /\ count_events queries_store (postDebate env reqBody).1 = 1
  /\ (status (postDebate env reqBody).2 = 201
      <-> exists d, Debate_save env reqBody = Ok d
                    /\ (postDebate env reqBody).2 = success_data 201 (PDebate d))
  /\ (status (postDebate env reqBody).2 = 400
      <-> exists e, Debate_save env reqBody = Throw e
                    /\ err_name e = "ValidationError")
  /\ (status (postDebate env reqBody).2 = 500
      <-> exists e, Debate_save env reqBody = Throw e
                    /\ err_name e <> "ValidationError")
  /\ (forall e, Debate_save env reqBody = Throw e ->
        success_flag (postDebate env reqBody).2 = Some (pbool false)
        /\ body (postDebate env reqBody).2 !! "error" = Some (pstr (err_message e))).
Proof.
  unfold postDebate.
  destruct (Debate_save env reqBody) as [d|e] eqn:Hsave; simpl.
  - split; [reflexivity|]. split; [reflexivity|].
    split; [split; [intros _; eauto|reflexivity]|].
    split; [split; [intros H; discriminate H|intros (e & He & _); discriminate He]|].
    split; [split; [intros H; discriminate H|intros (e & He & _); discriminate He]|].
    intros e He. discriminate He.
  - destruct (String.eqb (err_name e) "ValidationError") eqn:Hname; simpl.
    + apply String.eqb_eq in Hname.
      split; [reflexivity|]. split; [reflexivity|].
      split; [split; [intros H; discriminate H|intros (d & Hd & _); discriminate Hd]|].
      split; [split; [intros _; eauto|reflexivity]|].
      split; [split; [intros H; discriminate H|intros (e' & [= <-] & Hne); contradiction]|].
      intros e' [= <-]. split; reflexivity.
    + apply String.eqb_neq in Hname.
      split; [reflexivity|]. split; [reflexivity|].
      split; [split; [intros H; discriminate H|intros (d & Hd & _); discriminate Hd]|].
      split; [split; [intros H; discriminate H|intros (e' & [= <-] & Heq); contradiction]|].
      split; [split; [intros _; eauto|reflexivity]|].
      intros e' [= <-]. split; reflexivity.
Qed.

Lemma getDebateById_reads_then_answers_witness :
  status (getDebateById (demoEnv [catsDebate]) "65f0c0ffee0123456789abcd").2 = 200
  /\ body (getDebateById (demoEnv [catsDebate]) "65f0c0ffee0123456789abcd").2 !! "data"
     = Some (PDebate catsDebate)
  /\ count_events queries_store (getDebateById (demoEnv [catsDebate]) "not-an-id").1 = 0.
Proof.
  destruct (getDebateById_reads_then_answers (demoEnv [catsDebate])
              "65f0c0ffee0123456789abcd") as (_ & Hok & _).
  destruct (getDebateById_reads_then_answers (demoEnv [catsDebate]) "not-an-id")
    as (Hcount & _).
  split; [apply Hok; split; [reflexivity|exists catsDebate; split; reflexivity]|].
  split; [reflexivity|exact Hcount].
Defined.

Lemma postDebate_status_by_error_witness :
  Debate_save (demoEnv []) ∅ = rejectSave ∅
  /\ status (postDebate (demoEnv []) ∅).2 = 400
  /\ status (postDebate outageEnv ∅).2 = 500.
Proof.
  destruct (postDebate_status_by_error (demoEnv []) ∅) as (_ & _ & _ & Hbad & _).
  destruct (postDebate_status_by_error outageEnv ∅) as (_ & _ & _ & _ & Hdown & _).
  split; [reflexivity|]. split.
  - apply Hbad. eexists. split; reflexivity.
  - apply Hdown. exists networkError. split; [reflexivity|discriminate].
Defined.

(** X9: [GET /api/debates] reads the store once, with the fixed projection and
    no filter.  It answers 200 exactly when the read succeeds, with the
    store's list as [data], unchanged and in the store's order; otherwise
    500 with the error's message. *)
Theorem getDebates_passes_list_through env :
  (getDebates env).1 !! 0 = Some (EvFindProjected "debateTopic userRole createdAt clientId")
  /\ count_events queries_store (getDebates env).1 = 1
  /\ (status (getDebates env).2 = 200
      <-> exists l,
            Debate_find_projected env "debateTopic userRole createdAt clientId" = Ok l
            /\ (getDebates env).2 = success_data 200 (PSummaries l))
  /\ (status (getDebates env).2 = 500
      <-> exists e,
            Debate_find_projected env "debateTopic userRole createdAt clientId" = Throw e
            /\ body (getDebates env).2 !! "error" = Some (pstr (err_message e)))
  /\ (status (getDebates env).2 = 200 \/ status (getDebates env).2 = 500).
Proof.
  unfold getDebates.
  destruct (Debate_find_projected env _) as [l|e] eqn:Hfind; simpl.
  - split; [reflexivity|]. split; [reflexivity|].
    split; [split; [intros _; eauto|reflexivity]|].
    split; [split; [intros H; discriminate H|intros (e & He & _); discriminate He]|].
    left. reflexivity.
  - split; [reflexivity|]. split; [reflexivity|].
    split; [split; [intros H; discriminate H|intros (l & Hl & _); discriminate Hl]|].
    split; [split; [intros _; eauto|reflexivity]|].
    right. reflexivity.
Qed.

Lemma getDebates_passes_list_through_witness :
  status (getDebates (demoEnv [catsDebate; dogsDebate])).2 = 200
  /\ body (getDebates (demoEnv [catsDebate; dogsDebate])).2 !! "data"
     = Some (PSummaries [summary dogsDebate; summary catsDebate])
  /\ status (getDebates outageEnv).2 = 500.
Proof.
  destruct (getDebates_passes_list_through (demoEnv [catsDebate; dogsDebate]))
    as (_ & _ & Hok & _).
  destruct (getDebates_passes_list_through outageEnv) as (_ & _ & _ & Hdown & _).
  split; [apply Hok; eexists; split; reflexivity|].
  split; [reflexivity|].
  apply Hdown. exists networkError. split; reflexivity.
Defined.

(** ** Loading for one client *)

Lemma insert_newest_sorted (d : Debate) (l : list Debate) :
  StronglySorted newer_or_same l -> StronglySorted newer_or_same (insert_newest d l).
Proof.
  induction l as [|x rest IH]; intros Hsorted; simpl.
  - repeat constructor.
  - apply StronglySorted_cons in Hsorted as [Hx Hrest].
    destruct (Z.ltb (createdAt x) (createdAt d)) eqn:Hlt.
    + apply Z.ltb_lt in Hlt. apply StronglySorted_cons. split.
      * constructor; [unfold newer_or_same; lia|].
        eapply Forall_impl; [exact Hx|]. unfold newer_or_same. intros y Hy. lia.
      * apply StronglySorted_cons. split; assumption.
    + apply Z.ltb_ge in Hlt. apply StronglySorted_cons. split; [|apply IH, Hrest].
      rewrite insert_newest_perm. constructor; [exact Hlt|exact Hx].
Qed.

Lemma newest_first_sorted (l : list Debate) : StronglySorted newer_or_same (newest_first l).
Proof.
  induction l as [|d rest IH]; simpl; [constructor|]. now apply insert_newest_sorted.
Qed.

(** X10: with a non-empty string as [clientId], the route asks the store for
    that client only.  Over a store that answers [find] with the matching
    records, newest first, the records loaded are exactly that client's, no
    text of another client reaches the splitter, and a client without
    records gets the empty-history reply whatever the other clients have
    stored. *)
Theorem string_clientId_loads_own_records cast_match save embed generate
    (db : list Debate) (v : Variant) (reqBody : gmap string JsVal) (cid : string) :
  truthy (get reqBody "question") = true ->
  get reqBody "clientId" = VStr cid ->
  cid <> EmptyString ->
  ragFilter reqBody = FClientId (VStr cid)
  /\ exists loaded,
       Debate_find (specEnv cast_match save embed generate db) (ragFilter reqBody) = Ok loaded
       /\ (forall d, d ∈ loaded <-> d ∈ db /\ clientId d = cid)
       /\ StronglySorted newer_or_same loaded
       /\ (loaded = [] ->
           chatRag v (specEnv cast_match save embed generate db) reqBody
           = ([EvFind (FClientId (VStr cid))], success_reply noHistoryReply))
       /\ (loaded <> [] ->
           exists t,
             (chatRag v (specEnv cast_match save embed generate db) reqBody).1
             = EvFind (FClientId (VStr cid))
                 :: EvCreateDocuments (chunkSize v) 200 (debateTexts loaded) :: t).
Proof.
  intros Hq Hcid Hne.
  assert (Hfilter : ragFilter reqBody = FClientId (VStr cid)).
  { unfold ragFilter. rewrite Hcid. simpl.
    destruct (String.eqb cid EmptyString) eqn:Heq; [|reflexivity].
    apply String.eqb_eq in Heq. contradiction. }
  split; [exact Hfilter|].
  set (env := specEnv cast_match save embed generate db).
  exists (newest_first (filter (fun d => matches cast_match (FClientId (VStr cid)) d = true) db)).
  assert (Hfind : Debate_find env (ragFilter reqBody)
                  = Ok (newest_first
                          (filter (fun d => matches cast_match (FClientId (VStr cid)) d = true)
                             db))).
  { rewrite Hfilter. reflexivity. }
  split; [exact Hfind|]. split; [|split; [apply newest_first_sorted|split]].
  - intros d. rewrite newest_first_perm, list_elem_of_filter. simpl.
    rewrite String.eqb_eq. split; intros [H1 H2]; split; congruence.
  - intros Hempty. rewrite Hempty in Hfind.
    unfold chatRag. rewrite Hq. simpl negb. cbv iota.
    unfold ragFilter in Hfind, Hfilter.
    rewrite (ragPipeline_empty v env _ _ [] Hfind eq_refl), Hfilter. reflexivity.
  - intros Hloaded.
    destruct (chatRag_splits_loaded_records v env reqBody _ Hq Hfind Hloaded) as (t & Hrun).
    rewrite Hfilter in Hrun. eauto.
Qed.

Lemma string_clientId_loads_own_records_witness :
  let db := [catsDebate; dogsDebate; marsDebate] in
  let reqBody : gmap string JsVal :=
    <["question" := VStr "What did I argue?"]> (<["clientId" := VStr "u2"]> ∅) in
  ragFilter reqBody = FClientId (VStr "u2")
  /\ Debate_find (demoEnv db) (ragFilter reqBody) = Ok [dogsDebate]
  /\ exists loaded,
       Debate_find (demoEnv db) (ragFilter reqBody) = Ok loaded
       /\ forall d, d ∈ loaded <-> d ∈ db /\ clientId d = "u2".
Proof.
  cbv zeta.
  assert (Hq : truthy (get (<["question" := VStr "What did I argue?"]>
                              (<["clientId" := VStr "u2"]> ∅)) "question") = true)
    by reflexivity.
  assert (Hcid : get (<["question" := VStr "What did I argue?"]>
                        (<["clientId" := VStr "u2"]> ∅)) "clientId" = VStr "u2")
    by reflexivity.
  assert (Hne : "u2" <> EmptyString) by discriminate.
  destruct (string_clientId_loads_own_records noCast rejectSave unitEmbed echoContext
              [catsDebate; dogsDebate; marsDebate] ServerMemory _ "u2" Hq Hcid Hne)
    as (Hfilter & loaded & Hfind & Hown & _).
  split; [exact Hfilter|]. split; [reflexivity|].
  exists loaded. split; [exact Hfind|exact Hown].
Defined.

(** ** More on flattening *)

Lemma length_append (a b : string) :
  String.length (a +:+ b) = String.length a + String.length b.
Proof.
  induction a as [|ch a IH]; [reflexivity|].
  change (S (String.length (a +:+ b)) = S (String.length a + String.length b)).
  now rewrite IH.
Qed.

Lemma joined_lines_snoc (lines : list string) (x : string) :
  lines <> [] ->
  joined_lines (lines ++ [x]) = joined_lines lines +:+ newline +:+ x.
Proof.
  induction lines as [|y rest IH]; intros Hne; [contradiction|].
  destruct rest as [|z rest].
  - reflexivity.
  - change (y +:+ newline +:+ joined_lines ((z :: rest) ++ [x])
            = (y +:+ newline +:+ joined_lines (z :: rest)) +:+ newline +:+ x).
    rewrite IH by discriminate. now rewrite !append_assoc.
Qed.

(** X11: the text of a debate is never empty: it is 25 characters longer than
    topic, client id and joined turns together, so a record without turns
    still yields its header line.  Adding a turn at the end of a non-empty
    history appends one line, [newline] and ["<speaker>: <content>"], and
    leaves the text before it unchanged. *)
Theorem debateText_grows_by_lines (d : Debate) (h : list ChatTurn) (turn : ChatTurn) :
  String.length (debateText (with_history d h))
  = 25 + String.length (debateTopic d) + String.length (clientId d)
    + String.length (js_join newline (map chatLine h))
  /\ debateText (with_history d h) <> EmptyString
  /\ debateText (with_history d []) = headerLine d +:+ newline
  /\ debateText (with_history d [turn]) = headerLine d +:+ newline +:+ chatLine turn
  /\ (h <> [] ->
      debateText (with_history d (h ++ [turn]))
      = debateText (with_history d h) +:+ newline +:+ chatLine turn).
Proof.
  assert (Hlen : String.length (debateText (with_history d h))
                 = 25 + String.length (debateTopic d) + String.length (clientId d)
                   + String.length (js_join newline (map chatLine h))).
  { unfold debateText, with_history. simpl.
    rewrite !length_append. simpl. lia. }
  split; [exact Hlen|]. split.
  { intros Hempty. rewrite Hempty in Hlen. simpl in Hlen. lia. }
  split; [rewrite debateText_flattenRecord; reflexivity|].
  split; [rewrite debateText_flattenRecord; reflexivity|].
  intros Hne. rewrite !debateText_flattenRecord. unfold flattenRecord, headerLine.
  simpl. rewrite map_app. simpl.
  change turnLine with chatLine.
  rewrite joined_lines_snoc by (destruct h; [contradiction|discriminate]).
  now rewrite !append_assoc.
Qed.

Lemma debateText_grows_by_lines_witness :
  debateText catsDebate
  = debateText (with_history catsDebate
                  [mkTurn (SVal "user") (SVal "Cats are independent.") (Some 1700000000000%Z)])
    +:+ newline +:+ "ai: Dogs are loyal.".
Proof.
  destruct (debateText_grows_by_lines catsDebate
              [mkTurn (SVal "user") (SVal "Cats are independent.") (Some 1700000000000%Z)]
              (mkTurn (SVal "ai") (SVal "Dogs are loyal.") (Some 1700000001000%Z)))
    as (_ & _ & _ & _ & Hgrow).
  apply Hgrow. discriminate.
Defined.

(** ** The two variants, on the handlers *)




